(** * CTPHelper: feature extraction for the convolutional track PID

    A shallow embedding of [dunereco/TrackPID/CTPHelper.cxx] and the
    properties of its feature-extraction pipeline.

    - C++ [float] is IEEE 754 binary32, round to nearest even: the
      operations of [SpecFloat] at precision 24 and maximal exponent 128.
    - [unsigned int] is a 32-bit integer: a [Z] with the wrap-around
      [wrap32] written at every operation the source performs on it.
    - [std::vector<float>] is a [list float]; reading or writing
      [v[i]] outside the vector is undefined behaviour, [v.at(i)] outside
      the vector throws [std::out_of_range].  Both are outcomes of the
      model, next to a normal return. *)

From Stdlib Require Import ZArith List Bool Lia Permutation.
From Stdlib Require Import Floats.SpecFloat.
Import ListNotations.
Local Open Scope Z_scope.

(* ================================================================== *)
(** ** Single-precision floats *)

Definition float : Type := spec_float.

Module F32.

Definition prec : Z := 24.
Definition emax : Z := 128.

Definition add : float -> float -> float := SFadd prec emax.
Definition sub : float -> float -> float := SFsub prec emax.
Definition mul : float -> float -> float := SFmul prec emax.
Definition div : float -> float -> float := SFdiv prec emax.
Definition sqrt : float -> float := SFsqrt prec emax.

(** [a < b], [a > b] and [a <= b]; each is false when an operand is NaN. *)
Definition ltb (a b : float) : bool := SFltb a b.
Definition gtb (a b : float) : bool := SFltb b a.
Definition leb (a b : float) : bool := SFleb a b.

(** Conversion of an integer ([unsigned int], [int], [size_t]) to [float]. *)
Definition of_Z (z : Z) : float := binary_normalize prec emax z 0 false.

Definition zero : float := S754_zero false.
Definition half : float := Eval vm_compute in div (of_Z 1) (of_Z 2).

Definition is_nan (a : float) : bool :=
  match a with S754_nan => true | _ => false end.

Definition is_finite (a : float) : bool :=
  match a with S754_zero _ | S754_finite _ _ _ => true | _ => false end.

End F32.

(* ================================================================== *)
(** ** Machine integers *)

Definition wrap32 (z : Z) : Z := z mod 2 ^ 32.

(* ================================================================== *)
(** ** Outcomes of a call *)

Inductive exn : Type :=
| out_of_range.   (* std::out_of_range, thrown by std::vector::at *)

Inductive outcome (A : Type) : Type :=
| Ret (a : A)           (* normal return *)
| Throw (e : exn)       (* a C++ exception leaves the function *)
| Undefined             (* undefined behaviour: access outside a vector *)
| Blocked.              (* the padding loop still asks for a draw when the
                           modelled draws are used up *)

Arguments Ret {A} a.
Arguments Throw {A} e.
Arguments Undefined {A}.
Arguments Blocked {A}.

Definition obind {A B : Type} (m : outcome A) (k : A -> outcome B) : outcome B :=
  match m with
  | Ret a => k a
  | Throw e => Throw e
  | Undefined => Undefined
  | Blocked => Blocked
  end.

Declare Scope outcome_scope.
Delimit Scope outcome_scope with outcome.
Notation "x <- m ;; k" := (obind m (fun x => k))
  (at level 61, m at next level, right associativity) : outcome_scope.

(** A loop over a list of index values, stopped by the first outcome that
    is not a normal return. *)
Fixpoint ofold {A S : Type} (body : S -> A -> outcome S) (l : list A) (s : S)
  : outcome S :=
  match l with
  | [] => Ret s
  | a :: l' => obind (body s a) (ofold body l')
  end.

(** [for (q = lo; q < hi; ++q)]: the values of [q] at which the body runs. *)
Definition indices_up (lo hi : Z) : list Z :=
  map (fun k => lo + Z.of_nat k) (seq 0 (Z.to_nat (hi - lo))).

(** [for (e = hi; e > lo; --e)]: the values of [e] at which the body runs. *)
Definition indices_down (hi lo : Z) : list Z :=
  map (fun k => hi - Z.of_nat k) (seq 0 (Z.to_nat (hi - lo))).

(* ================================================================== *)
(** ** std::vector<float> *)

Definition size (v : list float) : Z := Z.of_nat (length v).

Definition in_range (v : list float) (i : Z) : bool :=
  (0 <=? i) && (i <? size v).

(** [v[i]] as an rvalue. *)
Definition get (v : list float) (i : Z) : outcome float :=
  if in_range v i then Ret (nth (Z.to_nat i) v F32.zero) else Undefined.

(** [v[i] = x]. *)
Definition set (v : list float) (i : Z) (x : float) : outcome (list float) :=
  if in_range v i
  then Ret (firstn (Z.to_nat i) v ++ x :: skipn (Z.to_nat (i + 1)) v)
  else Undefined.

(** [v.at(i)]. *)
Definition at_ (v : list float) (i : Z) : outcome float :=
  if in_range v i then Ret (nth (Z.to_nat i) v F32.zero) else Throw out_of_range.

(** [v.at(i)] on a vector of any element type. *)
Definition vector_at {A : Type} (v : list A) (i : nat) : outcome A :=
  match nth_error v i with
  | Some x => Ret x
  | None => Throw out_of_range
  end.

(* ================================================================== *)
(** ** Configuration (the members set by the constructor) *)

Record Config : Type := mkConfig {
  fMinTrackPoints : Z;     (* unsigned int, "MinHits", default 50 *)
  fDedxLength : Z;         (* unsigned int, "DedxLength", default 100 *)
  fQMax : float;           (* float, "MaxCharge", default 1000 *)
  fQJump : float           (* float, "MaxChargeJump", default 500 *)
}.

Definition defaultConfig : Config :=
  mkConfig 50 100 (F32.of_Z 1000) (F32.of_Z 500).

(** The two lengths are values of an [unsigned int]. *)
Definition config_wf (cfg : Config) : Prop :=
  0 <= fMinTrackPoints cfg < 2 ^ 32 /\ 0 <= fDedxLength cfg < 2 ^ 32.

(* ================================================================== *)
(** ** SmoothDedxVector *)

Local Open Scope outcome_scope.

(** The first loop, [for(float val : dedx)]: [val] is a copy of the
    element.  The body assigns to the copy; the vector is the loop's
    state and the body hands it on as it got it. *)
Definition clamp_body (cfg : Config) (dedx : list float) (val : float)
  : list float :=
  let val := if F32.gtb val (fQMax cfg) then fQMax cfg else val in
  let val := if F32.ltb val F32.zero then F32.zero else val in
  dedx.

Definition clamp_pass (cfg : Config) (dedx : list float) : list float :=
  fold_left (clamp_body cfg) dedx dedx.

(** [if((dedx[0] - dedx[1]) > fQJump) dedx[0] = dedx[1] + (dedx[1] - dedx[2]);] *)
Definition smooth_first (cfg : Config) (dedx : list float)
  : outcome (list float) :=
  d0 <- get dedx 0 ;;
  d1 <- get dedx 1 ;;
  if F32.gtb (F32.sub d0 d1) (fQJump cfg)
  then d2 <- get dedx 2 ;;
       set dedx 0 (F32.add d1 (F32.sub d1 d2))
  else Ret dedx.

(** [if((dedx[nQ-1] - dedx[nQ-2]) > fQJump)
      dedx[nQ-1] = dedx[nQ-2] + (dedx[nQ-2] - dedx[nQ-3]);] *)
Definition smooth_last (cfg : Config) (nQ : Z) (dedx : list float)
  : outcome (list float) :=
  a <- get dedx (wrap32 (nQ - 1)) ;;
  b <- get dedx (wrap32 (nQ - 2)) ;;
  if F32.gtb (F32.sub a b) (fQJump cfg)
  then c <- get dedx (wrap32 (nQ - 3)) ;;
       set dedx (wrap32 (nQ - 1)) (F32.add b (F32.sub b c))
  else Ret dedx.

(** The body of [for(unsigned int q = 1; q < nQ - 1; ++q)]; the product
    with the [double] constant [0.5] is exact, so its conversion back to
    [float] is the single-precision product. *)
Definition smooth_body (cfg : Config) (dedx : list float) (q : Z)
  : outcome (list float) :=
  dq <- get dedx q ;;
  dp <- get dedx (wrap32 (q - 1)) ;;
  if F32.gtb (F32.sub dq dp) (fQJump cfg)
  then dn <- get dedx (wrap32 (q + 1)) ;;
       set dedx q (F32.mul F32.half (F32.add dp dn))
  else Ret dedx.

Definition SmoothDedxVector (cfg : Config) (dedx : list float)
  : outcome (list float) :=
  let dedx := clamp_pass cfg dedx in
  let nQ := wrap32 (size dedx) in
  dedx <- smooth_first cfg dedx ;;
  dedx <- smooth_last cfg nQ dedx ;;
  ofold (smooth_body cfg) (indices_up 1 (wrap32 (nQ - 1))) dedx.

(* ================================================================== *)
(** ** GetDedxMeanAndSigma *)

Definition GetDedxMeanAndSigma (dedx : list float) : float * float :=
  let averageDedx := fold_left (fun acc q => F32.add acc q) dedx F32.zero in
  let mean := F32.div averageDedx (F32.of_Z (size dedx)) in
  let sigmaDedx :=
    fold_left
      (fun acc q => F32.add acc (F32.mul (F32.sub mean q) (F32.sub mean q)))
      dedx F32.zero in
  let sigma := F32.sqrt (F32.div sigmaDedx (F32.of_Z (size dedx))) in
  (mean, sigma).

(** The Statistics Engine as the specification words it: a sum, a count,
    and the two quotients.  The sum adds from the first element on. *)
Module StatSpec.

Definition sum (l : list float) : float := fold_left F32.add l F32.zero.
Definition count (l : list float) : float := F32.of_Z (Z.of_nat (length l)).
Definition mean (l : list float) : float := F32.div (sum l) (count l).
Definition squared_deviation (m v : float) : float :=
  F32.mul (F32.sub m v) (F32.sub m v).
Definition stddev (l : list float) : float :=
  F32.sqrt (F32.div (sum (map (squared_deviation (mean l)) l)) (count l)).

End StatSpec.

(* ================================================================== *)
(** ** The window of the cleaned sequence (GetNetworkInputs, lines 88-92) *)

Definition pointsForAverage (cfg : Config) : Z :=
  wrap32 (fDedxLength cfg - fMinTrackPoints cfg) / 3.

Definition avStart (cfg : Config) (dedxVector : list float) : Z :=
  wrap32 (size dedxVector - 1 - pointsForAverage cfg).

Definition avEnd (cfg : Config) (dedxVector : list float) : Z :=
  wrap32 (size dedxVector - 1 - wrap32 (2 * pointsForAverage cfg)).

(** The values of [e] in
    [for(unsigned int e = avStart; e > avEnd; --e)]. *)
Definition windowIndices (cfg : Config) (dedxVector : list float) : list Z :=
  indices_down (avStart cfg dedxVector) (avEnd cfg dedxVector).

(** [dedxTrunc.push_back(dedxVector.at(e))] *)
Definition window_body (dedxVector dedxTrunc : list float) (e : Z)
  : outcome (list float) :=
  x <- at_ dedxVector e ;;
  Ret (dedxTrunc ++ [x]).

Definition dedxWindow (cfg : Config) (dedxVector : list float)
  : outcome (list float) :=
  ofold (window_body dedxVector) (windowIndices cfg dedxVector) [].

(** [v.insert(v.begin(), dedxVector.end() - n, dedxVector.end())] into an
    empty [v]: the last [n] elements; an iterator before [begin()] is
    undefined behaviour. *)
Definition last_elements (dedxVector : list float) (n : Z)
  : outcome (list float) :=
  if n <=? size dedxVector
  then Ret (skipn (Z.to_nat (size dedxVector - n)) dedxVector)
  else Undefined.

(* ================================================================== *)
(** ** Calls made by GetNetworkInputs *)

Inductive call : Type :=
| CallSmoothDedxVector
| CallGetDedxMeanAndSigma
| CallPadDedxVector
| CallGetChildParticles
| CallGetDeflectionMeanAndSigma.

(** A computation with the member functions it has called so far. *)
Definition traced (A : Type) : Type := list call * outcome A.

Definition tret {A : Type} (a : A) : traced A := ([], Ret a).

Definition tbind {A B : Type} (m : traced A) (k : A -> traced B) : traced B :=
  match snd m with
  | Ret a => (fst m ++ fst (k a), snd (k a))
  | Throw e => (fst m, Throw e)
  | Undefined => (fst m, Undefined)
  | Blocked => (fst m, Blocked)
  end.

Definition invoke {A : Type} (c : call) (o : outcome A) : traced A := ([c], o).
Definition inline {A : Type} (o : outcome A) : traced A := ([], o).

Declare Scope traced_scope.
Delimit Scope traced_scope with traced.
Notation "x <-- m ;; k" := (tbind m (fun x => k))
  (at level 61, m at next level, right associativity) : traced_scope.

Section CTPHelper.

(** ROOT's [TVector3] and [TVector3::Angle], the angle converted to
    [float] as [trajAngle.push_back] does. *)
Variable TVector3 : Type.
Variable Angle : TVector3 -> TVector3 -> float.

(** The values [gaussDist(generator)] returns, in order, for a
    [std::normal_distribution<float>(mean, sigma)] on a default-constructed
    [std::default_random_engine]. *)
Variable gaussDist : float -> float -> list float.

(** [recob::Track]: the trajectory, as far as the helper reads it.  The
    helper counts the points in an [unsigned int]; its loop over them ends
    only when their number is below 2^32, and the record is of such
    trajectories. *)
Record Track : Type := mkTrack {
  NPoints : Z;                        (* Trajectory().NPoints() *)
  DirectionAtPoint : Z -> TVector3;   (* Trajectory().DirectionAtPoint(p) *)
  NPoints_fits : (0 <=? NPoints) && (NPoints <? 2 ^ 32) = true
}.

(** [recob::PFParticle] in its event: what [DUNEAnaPFParticleUtils] and
    [DUNEAnaTrackUtils] answer about it. *)
#[warnings="-register-all"]
Inductive PFParticle : Type := mkPFParticle {
  IsTrack : bool;                     (* IsTrack(part, evt, ...) *)
  IsShower : bool;                    (* IsShower(part, evt, ...) *)
  GetTrack : Track;                   (* GetTrack(part, evt, ...) *)
  dEdx : list float;                  (* GetCalorimetry(track, ...)->dEdx() *)
  GetChildren : list PFParticle       (* GetChildParticles(part, evt, ...) *)
}.

Definition NumDaughters (p : PFParticle) : Z :=
  Z.of_nat (length (GetChildren p)).

(* ------------------------------------------------------------------ *)
(** *** PadDedxVector *)

(** The [for] loop with its inner [do ... while (randVal < 0)]: each draw
    is either rejected, and the next one taken, or inserted at the front,
    and [h] incremented.  The second component tells whether the loop
    has left. *)
Fixpoint pad_loop (cfg : Config) (originalSize : Z) (draws : list float)
    (h : Z) (dedx : list float) : list float * bool :=
  if wrap32 (h + originalSize) <? fDedxLength cfg then
    match draws with
    | [] => (dedx, false)
    | randVal :: draws' =>
        if F32.ltb randVal F32.zero
        then pad_loop cfg originalSize draws' h dedx
        else pad_loop cfg originalSize draws' (wrap32 (h + 1)) (randVal :: dedx)
    end
  else (dedx, true).

Definition PadDedxVector (cfg : Config) (dedx : list float)
    (mean sigma : float) : outcome (list float) :=
  let originalSize := wrap32 (size dedx) in
  let '(dedx', finished) :=
    pad_loop cfg originalSize (gaussDist mean sigma) 0 dedx in
  if finished then Ret dedx' else Blocked.

(* ------------------------------------------------------------------ *)
(** *** GetDeflectionMeanAndSigma *)

(** The loop [for(unsigned int p = 1; p < NPoints(); ++p)] that fills
    [trajAngle].  A trajectory has fewer than 2^32 points
    ([NPoints_fits]), so [p] reaches [NPoints] before [++p] can wrap
    around, and the loop runs at [p = 1, ..., NPoints - 1]. *)
Definition trajAngle (track : Track) : list float :=
  map (fun p => Angle (DirectionAtPoint track p)
                      (DirectionAtPoint track (wrap32 (p - 1))))
      (indices_up 1 (NPoints track)).

Definition GetDeflectionMeanAndSigma (track : Track) : float * float :=
  let trajAngle := trajAngle track in
  let averageAngle := fold_left (fun acc a => F32.add acc a) trajAngle F32.zero in
  let mean := F32.div averageAngle (F32.of_Z (size trajAngle)) in
  let standardDevAngle :=
    fold_left
      (fun acc a => F32.add acc (F32.mul (F32.sub mean a) (F32.sub mean a)))
      trajAngle F32.zero in
  let sigma := F32.sqrt (F32.div standardDevAngle (F32.of_Z (size trajAngle))) in
  (mean, sigma).

(* ------------------------------------------------------------------ *)
(** *** GetChildParticles *)

(** The loop body: [IsTrack] and [IsShower] are asked of [part]; only
    [NumDaughters] is asked of [child]. *)
Definition children_body (part : PFParticle) (n : Z * Z * Z)
    (child : PFParticle) : Z * Z * Z :=
  let '(nTrack, nShower, nGrand) := n in
  (wrap32 (nTrack + Z.b2z (IsTrack part)),
   wrap32 (nShower + Z.b2z (IsShower part)),
   wrap32 (nGrand + NumDaughters child)).

Definition GetChildParticles (part : PFParticle) : Z * Z * Z :=
  let children := GetChildren part in
  fold_left (children_body part) children (0, 0, 0).

(** The counts as the specification words them: each child classified
    itself. *)
Definition countChildren_spec (part : PFParticle) : Z * Z * Z :=
  (Z.of_nat (length (filter IsTrack (GetChildren part))),
   Z.of_nat (length (filter IsShower (GetChildren part))),
   fold_right Z.add 0 (map NumDaughters (GetChildren part))).

(* ------------------------------------------------------------------ *)
(** *** GetNetworkInputs *)

Local Open Scope traced_scope.

Definition GetNetworkInputs (cfg : Config) (part : PFParticle)
  : traced (list (list float)) :=
  let netInputs : list (list float) := [] in
  if negb (IsTrack part) then tret netInputs else
  let thisTrack := GetTrack part in
  let thisCalo := dEdx part in
  if size thisCalo <? fMinTrackPoints cfg then tret netInputs else
  dedxVector <-- invoke CallSmoothDedxVector (SmoothDedxVector cfg thisCalo) ;;
  dedxTrunc <-- inline (dedxWindow cfg dedxVector) ;;
  ms <-- invoke CallGetDedxMeanAndSigma (Ret (GetDedxMeanAndSigma dedxTrunc)) ;;
  let '(dedxMean, dedxSigma) := ms in
  dedxVector <--
    (if size dedxVector <? fMinTrackPoints cfg
     then invoke CallPadDedxVector (PadDedxVector cfg dedxVector dedxMean dedxSigma)
     else tret dedxVector) ;;
  finalInputDedx <-- inline (last_elements dedxVector (fDedxLength cfg)) ;;
  n <-- invoke CallGetChildParticles (Ret (GetChildParticles part)) ;;
  let '(nTrack, nShower, nGrand) := n in
  defl <-- invoke CallGetDeflectionMeanAndSigma
             (Ret (GetDeflectionMeanAndSigma thisTrack)) ;;
  let '(deflectionMean, deflectionSigma) := defl in
  let finalInputVariables :=
    [F32.of_Z nTrack; F32.of_Z nShower; F32.of_Z nGrand;
     dedxMean; dedxSigma; deflectionMean; deflectionSigma] in
  tret (netInputs ++ [finalInputDedx] ++ [finalInputVariables]).

(** [GetDeDxVector]: [GetNetworkInputs(part,evt).at(0)]. *)
Definition GetDeDxVector (cfg : Config) (part : PFParticle)
  : outcome (list float) :=
  match snd (GetNetworkInputs cfg part) with
  | Ret r => match r with
             | v :: _ => Ret v
             | [] => Throw out_of_range
             end
  | Throw e => Throw e
  | Undefined => Undefined
  | Blocked => Blocked
  end.

(** [GetVariableVector]: [GetNetworkInputs(part,evt).at(1)]. *)
Definition GetVariableVector (cfg : Config) (part : PFParticle)
  : outcome (list float) :=
  match snd (GetNetworkInputs cfg part) with
  | Ret r => match r with
             | _ :: v :: _ => Ret v
             | _ => Throw out_of_range
             end
  | Throw e => Throw e
  | Undefined => Undefined
  | Blocked => Blocked
  end.

(** [tf::CTPGraph::run] of the network loaded from [fNetName]. *)
Variable convNet : list (list (list float)) -> list (list (list float)).

(** [RunConvolutionalTrackPID]; the [CTPResult] is the vector of scores it
    is constructed from. *)
Definition RunConvolutionalTrackPID (cfg : Config) (part : PFParticle)
  : outcome (list float) :=
  match snd (GetNetworkInputs cfg part) with
  | Ret twoVecs =>
      let finalInputs := [twoVecs] in
      let convNetOutput := convNet finalInputs in
      (first <- vector_at convNetOutput 0 ;;
       vector_at first 0)%outcome
  | Throw e => Throw e
  | Undefined => Undefined
  | Blocked => Blocked
  end.

End CTPHelper.

Arguments mkTrack {TVector3} _ _ _.
Arguments NPoints {TVector3} _.
Arguments DirectionAtPoint {TVector3} _ _.
Arguments NPoints_fits {TVector3} _.
Arguments mkPFParticle {TVector3} _ _ _ _ _.
Arguments IsTrack {TVector3} _.
Arguments IsShower {TVector3} _.
Arguments GetTrack {TVector3} _.
Arguments dEdx {TVector3} _.
Arguments GetChildren {TVector3} _.
Arguments NumDaughters {TVector3} _.
Arguments trajAngle {TVector3} _ _.
Arguments GetDeflectionMeanAndSigma {TVector3} _ _.
Arguments children_body {TVector3} _ _ _.
Arguments GetChildParticles {TVector3} _.
Arguments countChildren_spec {TVector3} _.
Arguments GetNetworkInputs {TVector3} _ _ _ _.
Arguments GetDeDxVector {TVector3} _ _ _ _.
Arguments GetVariableVector {TVector3} _ _ _ _.
Arguments RunConvolutionalTrackPID {TVector3} _ _ _ _ _.

(* ================================================================== *)
(** ** What the claims speak of *)

(** Element [i] of a sequence. *)
Definition elt (v : list float) (i : Z) : float := nth (Z.to_nat i) v F32.zero.

(** The clamp as the specification words it, element by element. *)
Definition clamp_spec (cfg : Config) (v : float) : float :=
  if F32.gtb v (fQMax cfg) then fQMax cfg
  else if F32.ltb v F32.zero then F32.zero
  else v.

(** All values lie within [0, clampMax]. *)
Definition within_clamp (cfg : Config) (dedx : list float) : Prop :=
  Forall (fun v => F32.leb F32.zero v = true /\ F32.leb v (fQMax cfg) = true) dedx.

(** None of the differences the three jump rules look at exceeds the
    threshold. *)
Definition no_jumps (cfg : Config) (dedx : list float) : Prop :=
  let n := size dedx in
  F32.gtb (F32.sub (elt dedx 0) (elt dedx 1)) (fQJump cfg) = false /\
  F32.gtb (F32.sub (elt dedx (n - 1)) (elt dedx (n - 2))) (fQJump cfg) = false /\
  forall q, 1 <= q < n - 1 ->
    F32.gtb (F32.sub (elt dedx q) (elt dedx (q - 1))) (fQJump cfg) = false.

(** The window as the specification words it: the indices of the
    half-open range [[n-1-2p, n-1-p)]. *)
Definition claimed_window_indices (cfg : Config) (dedxVector : list float)
  : list Z :=
  let p := pointsForAverage cfg in
  let n := size dedxVector in
  indices_up (n - 1 - 2 * p) (n - 1 - p).

(** The elements of [v] at the indices [[lo, hi)]. *)
Definition slice (v : list float) (lo hi : Z) : list float :=
  firstn (Z.to_nat (hi - lo)) (skipn (Z.to_nat lo) v).

(** The sequence 0, 1, ..., n-1. *)
Definition ramp (n : nat) : list float :=
  map (fun k => F32.of_Z (Z.of_nat k)) (seq 0 n).

(** The number of draws the loop accepts. *)
Definition accepted (draws : list float) : Z :=
  Z.of_nat (length (filter (fun r => negb (F32.ltb r F32.zero)) draws)).

(** The sequence [v] with [x] at index [q]. *)
Definition replace_at (v : list float) (q : Z) (x : float) : list float :=
  firstn (Z.to_nat q) v ++ x :: skipn (Z.to_nat (q + 1)) v.


(** A value is not below zero, and is at least zero if it is a number. *)
Definition not_negative (v : float) : Prop :=
  F32.ltb v F32.zero = false /\
  (F32.is_nan v = false -> F32.leb F32.zero v = true).

(** Concrete events: directions without structure, so that every angle
    between two of them is zero, a generator whose draws all equal the
    mean, and particles
    on a three-point trajectory. *)
Definition no_angle (a b : unit) : float := F32.zero.
Definition steady_draws (mean sigma : float) : list float := repeat mean 200.
Definition straight_track : Track unit := mkTrack 3 (fun _ => tt) eq_refl.

Definition track_particle (dedx : list float)
    (children : list (PFParticle unit)) : PFParticle unit :=
  mkPFParticle true false straight_track dedx children.

Definition shower_particle (children : list (PFParticle unit))
  : PFParticle unit :=
  mkPFParticle false true straight_track [] children.

(** The angles between consecutive directions of a list of directions,
    each taken from the later direction to the one before it. *)
Fixpoint angles_after {T : Type} (Angle : T -> T -> float) (prev : T)
    (dirs : list T) : list float :=
  match dirs with
  | [] => []
  | d :: dirs' => Angle d prev :: angles_after Angle d dirs'
  end.

Definition consecutive_angles {T : Type} (Angle : T -> T -> float)
    (dirs : list T) : list float :=
  match dirs with
  | [] => []
  | d :: dirs' => angles_after Angle d dirs'
  end.

(** The directions of a trajectory, from the first point to the last. *)
Definition directions {T : Type} (track : Track T) : list T :=
  map (DirectionAtPoint track) (indices_up 0 (NPoints track)).

(** The scalar feature vector as the specification words it: the number
    of track-like children, of shower-like children and of grandchildren,
    the mean and the standard deviation over the window of the cleaned
    sequence (the elements [[n-2p, n-p)], the last one first), and the
    mean and the standard deviation of the angular deflection. *)
Definition features_spec {T : Type} (Angle : T -> T -> float) (cfg : Config)
    (part : PFParticle T) (cleaned : list float) : list float :=
  let '(trackCount, showerCount, grandchildCount) := countChildren_spec part in
  let n := size cleaned in
  let p := pointsForAverage cfg in
  let window := rev (slice cleaned (n - 2 * p) (n - p)) in
  let deflection := consecutive_angles Angle (directions (GetTrack part)) in
  [F32.of_Z trackCount; F32.of_Z showerCount; F32.of_Z grandchildCount;
   StatSpec.mean window; StatSpec.stddev window;
   StatSpec.mean deflection; StatSpec.stddev deflection].

(** A concrete event with a bent trajectory: directions are numbers, the
    angle between two of them is their distance; the trajectory has the
    four directions 0, 1, 4, 9; the samples are 0, 1, ..., 99; the first
    child is shower-like with one child of its own, the second is
    track-like without children. *)
Definition distance_angle (a b : Z) : float := F32.of_Z (Z.abs (a - b)).

Definition bent_track : Track Z := mkTrack 4 (fun p => p * p) eq_refl.

Definition leaf (track shower : bool) (children : list (PFParticle Z))
  : PFParticle Z :=
  mkPFParticle track shower (mkTrack 0 (fun _ => 0) eq_refl) [] children.

Definition family_particle : PFParticle Z :=
  mkPFParticle true false bent_track (ramp 100)
    [leaf false true [leaf false true []]; leaf true false []].


(** A track of 100 samples of value 10 with two children, the first of
    them with one child of its own. *)
Definition example_particle : PFParticle unit :=
  track_particle (repeat (F32.of_Z 10) 100)
    [shower_particle [shower_particle []]; track_particle [] []].

(* ================================================================== *)
(** ** Vectors and loops *)

Lemma wrap32_small (z : Z) : 0 <= z < 2 ^ 32 -> wrap32 z = z.
Proof. intros H. unfold wrap32. apply Z.mod_small. exact H. Qed.

Lemma wrap32_range (z : Z) : 0 <= wrap32 z < 2 ^ 32.
Proof. unfold wrap32. apply Z.mod_pos_bound. lia. Qed.

Lemma in_range_true (v : list float) (i : Z) :
  0 <= i < size v -> in_range v i = true.
Proof.
  intros [H0 H1]. unfold in_range.
  apply andb_true_intro. split; [apply Z.leb_le | apply Z.ltb_lt]; assumption.
Qed.

Lemma get_in_range (v : list float) (i : Z) :
  0 <= i < size v -> get v i = Ret (elt v i).
Proof. intros H. unfold get. rewrite (in_range_true _ _ H). reflexivity. Qed.

Lemma at_in_range (v : list float) (i : Z) :
  0 <= i < size v -> at_ v i = Ret (elt v i).
Proof. intros H. unfold at_. rewrite (in_range_true _ _ H). reflexivity. Qed.

Lemma set_size (v v' : list float) (i : Z) (x : float) :
  set v i x = Ret v' -> size v' = size v.
Proof.
  unfold set, in_range, size. intros H.
  destruct ((0 <=? i) && (i <? Z.of_nat (length v))) eqn:E; [| discriminate].
  injection H as <-.
  apply andb_prop in E. destruct E as [E0 E1].
  apply Z.leb_le in E0. apply Z.ltb_lt in E1.
  f_equal.
  rewrite length_app, length_firstn, length_cons, length_skipn. lia.
Qed.

Lemma ofold_invariant {A S : Type} (P : S -> Prop) (body : S -> A -> outcome S)
    (l : list A) :
  (forall s a s', In a l -> P s -> body s a = Ret s' -> P s') ->
  forall s s', P s -> ofold body l s = Ret s' -> P s'.
Proof.
  induction l as [| a l IH]; intros Hstep s s' Hs Hrun; cbn in Hrun.
  - injection Hrun as <-. exact Hs.
  - destruct (body s a) as [s1 | | |] eqn:Eb; cbn in Hrun; try discriminate.
    apply (IH (fun s0 a0 s0' Hin => Hstep s0 a0 s0' (or_intror Hin)) s1 s');
      [| exact Hrun].
    apply (Hstep s a s1); [left; reflexivity | exact Hs | exact Eb].
Qed.

Lemma ofold_fixed {A S : Type} (body : S -> A -> outcome S) (l : list A) (s : S) :
  (forall a, In a l -> body s a = Ret s) -> ofold body l s = Ret s.
Proof.
  induction l as [| a l IH]; intros H; cbn; [reflexivity |].
  rewrite (H a (or_introl eq_refl)). cbn.
  apply IH. intros b Hb. apply H. right. exact Hb.
Qed.

Lemma in_indices_up (lo hi i : Z) :
  In i (indices_up lo hi) <-> lo <= i < hi.
Proof.
  unfold indices_up. rewrite in_map_iff. split.
  - intros [k [<- Hk]]. apply in_seq in Hk. lia.
  - intros H. exists (Z.to_nat (i - lo)). split; [lia |].
    apply in_seq. lia.
Qed.

Lemma in_indices_down (hi lo i : Z) :
  In i (indices_down hi lo) <-> lo < i <= hi.
Proof.
  unfold indices_down. rewrite in_map_iff. split.
  - intros [k [<- Hk]]. apply in_seq in Hk. lia.
  - intros H. exists (Z.to_nat (hi - i)). split; [lia |].
    apply in_seq. lia.
Qed.

(* ================================================================== *)
(** ** SmoothDedxVector: the clamping loop and the length *)

Lemma clamp_pass_unchanged (cfg : Config) (dedx : list float) :
  clamp_pass cfg dedx = dedx.
Proof.
  unfold clamp_pass.
  assert (H : forall l state, fold_left (clamp_body cfg) l state = state).
  { induction l as [| val rest IH]; intros state; cbn; [reflexivity |].
    unfold clamp_body at 2. apply IH. }
  apply H.
Qed.

Lemma smooth_first_size (cfg : Config) (dedx dedx' : list float) :
  smooth_first cfg dedx = Ret dedx' -> size dedx' = size dedx.
Proof.
  unfold smooth_first. intros H.
  destruct (get dedx 0) as [d0 | | |]; cbn in H; try discriminate.
  destruct (get dedx 1) as [d1 | | |]; cbn in H; try discriminate.
  destruct (F32.gtb (F32.sub d0 d1) (fQJump cfg)).
  - destruct (get dedx 2) as [d2 | | |]; cbn in H; try discriminate.
    exact (set_size _ _ _ _ H).
  - injection H as <-. reflexivity.
Qed.

Lemma smooth_last_size (cfg : Config) (nQ : Z) (dedx dedx' : list float) :
  smooth_last cfg nQ dedx = Ret dedx' -> size dedx' = size dedx.
Proof.
  unfold smooth_last. intros H.
  destruct (get dedx (wrap32 (nQ - 1))) as [a | | |]; cbn in H; try discriminate.
  destruct (get dedx (wrap32 (nQ - 2))) as [b | | |]; cbn in H; try discriminate.
  destruct (F32.gtb (F32.sub a b) (fQJump cfg)).
  - destruct (get dedx (wrap32 (nQ - 3))) as [c | | |]; cbn in H; try discriminate.
    exact (set_size _ _ _ _ H).
  - injection H as <-. reflexivity.
Qed.

Lemma smooth_body_size (cfg : Config) (q : Z) (dedx dedx' : list float) :
  smooth_body cfg dedx q = Ret dedx' -> size dedx' = size dedx.
Proof.
  unfold smooth_body. intros H.
  destruct (get dedx q) as [dq | | |]; cbn in H; try discriminate.
  destruct (get dedx (wrap32 (q - 1))) as [dp | | |]; cbn in H; try discriminate.
  destruct (F32.gtb (F32.sub dq dp) (fQJump cfg)).
  - destruct (get dedx (wrap32 (q + 1))) as [dn | | |]; cbn in H; try discriminate.
    exact (set_size _ _ _ _ H).
  - injection H as <-. reflexivity.
Qed.

(** The conditioner never changes the length of the sequence. *)
Lemma SmoothDedxVector_size (cfg : Config) (dedx dedx' : list float) :
  SmoothDedxVector cfg dedx = Ret dedx' -> size dedx' = size dedx.
Proof.
  unfold SmoothDedxVector. rewrite clamp_pass_unchanged. intros H.
  destruct (smooth_first cfg dedx) as [d1 | | |] eqn:E1; cbn in H; try discriminate.
  destruct (smooth_last cfg (wrap32 (size dedx)) d1) as [d2 | | |] eqn:E2;
    cbn in H; try discriminate.
  apply smooth_first_size in E1. apply smooth_last_size in E2.
  rewrite <- E1, <- E2.
  apply (ofold_invariant (fun s => size s = size d2) (smooth_body cfg)
           (indices_up 1 (wrap32 (wrap32 (size dedx) - 1))) ) with (s := d2);
    [| reflexivity | exact H].
  intros s q s' _ Hs Hb. apply smooth_body_size in Hb. congruence.
Qed.

(* ================================================================== *)
(** ** C1: the clamp *)

(** C1 (the code departs from the claim).  The claim: before the jump
    smoothing, every element above [fQMax] has become [fQMax] and every
    negative element has become 0.  The loop [for(float val : dedx)]
    assigns to a copy of each element, so the sequence the smoothing
    works on is the input as it came: at [2000, 2000, -5] with the default
    configuration the clamp pass and the whole conditioner return
    [2000, 2000, -5], where the claim asks for [1000, 1000, 0]. *)
Theorem C1_clamp_pass_keeps_out_of_range_values :
  let dedx := [F32.of_Z 2000; F32.of_Z 2000; F32.of_Z (-5)] in
  clamp_pass defaultConfig dedx = dedx /\
  SmoothDedxVector defaultConfig dedx = Ret dedx /\
  map (clamp_spec defaultConfig) dedx
    = [F32.of_Z 1000; F32.of_Z 1000; F32.zero] /\
  clamp_pass defaultConfig dedx <> map (clamp_spec defaultConfig) dedx.
Proof.
  cbv zeta. repeat split; try (vm_compute; reflexivity).
  vm_compute. discriminate.
Qed.

(* ================================================================== *)
(** ** C8: the conditioner on a sequence without jumps *)

Lemma smooth_first_no_jump (cfg : Config) (dedx : list float) :
  2 <= size dedx ->
  F32.gtb (F32.sub (elt dedx 0) (elt dedx 1)) (fQJump cfg) = false ->
  smooth_first cfg dedx = Ret dedx.
Proof.
  intros Hn Hj. unfold smooth_first.
  rewrite !get_in_range by lia. cbn [obind]. rewrite Hj. reflexivity.
Qed.

Lemma smooth_last_no_jump (cfg : Config) (dedx : list float) :
  2 <= size dedx < 2 ^ 32 ->
  F32.gtb (F32.sub (elt dedx (size dedx - 1)) (elt dedx (size dedx - 2)))
          (fQJump cfg) = false ->
  smooth_last cfg (wrap32 (size dedx)) dedx = Ret dedx.
Proof.
  intros Hn Hj. unfold smooth_last.
  rewrite (wrap32_small (size dedx)) by lia.
  rewrite (wrap32_small (size dedx - 1)), (wrap32_small (size dedx - 2)) by lia.
  rewrite !get_in_range by lia. cbn [obind]. rewrite Hj. reflexivity.
Qed.

Lemma smooth_body_no_jump (cfg : Config) (dedx : list float) (q : Z) :
  1 <= q < size dedx -> size dedx <= 2 ^ 32 ->
  F32.gtb (F32.sub (elt dedx q) (elt dedx (q - 1))) (fQJump cfg) = false ->
  smooth_body cfg dedx q = Ret dedx.
Proof.
  intros Hq Hn Hj. unfold smooth_body.
  rewrite (wrap32_small (q - 1)) by lia.
  rewrite !get_in_range by lia. cbn [obind]. rewrite Hj. reflexivity.
Qed.

(** C8.  On a sequence of at least three values, all within
    [[0, fQMax]], in which none of the differences looked at by the three
    jump rules exceeds [fQJump], [SmoothDedxVector] returns the sequence
    it was given; its length is therefore the same.  The length fits the
    [unsigned int] the function keeps it in. *)
Theorem C8_smooth_is_identity_without_jumps (cfg : Config) (dedx : list float) :
  3 <= size dedx < 2 ^ 32 ->
  within_clamp cfg dedx ->
  no_jumps cfg dedx ->
  SmoothDedxVector cfg dedx = Ret dedx /\
  (forall dedx', SmoothDedxVector cfg dedx = Ret dedx' ->
                 length dedx' = length dedx).
Proof.
  intros Hn _ (Hfirst & Hlast & Hrest).
  assert (Hid : SmoothDedxVector cfg dedx = Ret dedx).
  { unfold SmoothDedxVector. rewrite clamp_pass_unchanged. cbv zeta.
    rewrite smooth_first_no_jump by (lia || assumption). cbn [obind].
    rewrite smooth_last_no_jump by (lia || assumption). cbn [obind].
    apply ofold_fixed. intros q Hq.
    apply in_indices_up in Hq.
    rewrite (wrap32_small (size dedx)) in Hq by lia.
    rewrite (wrap32_small (size dedx - 1)) in Hq by lia.
    apply smooth_body_no_jump; [lia | lia |].
    apply Hrest. lia. }
  split; [exact Hid |].
  intros dedx' H. rewrite Hid in H. injection H as <-. reflexivity.
Qed.

(* ================================================================== *)
(** ** C3: the window of the mean and the standard deviation *)

Lemma skipn_cons_nth (v : list float) (a : nat) :
  (a < length v)%nat ->
  skipn a v = nth a v F32.zero :: skipn (S a) v.
Proof.
  revert a. induction v as [| x v IH]; intros a Ha; cbn in Ha; [lia |].
  destruct a as [| a]; [reflexivity |].
  cbn [skipn nth]. apply IH. lia.
Qed.

Lemma map_nth_seq (v : list float) (c a : nat) :
  (a + c <= length v)%nat ->
  map (fun k => nth (a + k) v F32.zero) (seq 0 c) = firstn c (skipn a v).
Proof.
  revert a. induction c as [| c IH]; intros a Ha; [reflexivity |].
  rewrite (skipn_cons_nth v a) by lia.
  cbn [seq map firstn]. rewrite Nat.add_0_r. f_equal.
  rewrite <- seq_shift, map_map.
  rewrite <- (IH (S a)) by lia.
  apply map_ext. intros k. f_equal. lia.
Qed.

Lemma map_elt_indices_up (v : list float) (lo hi : Z) :
  0 <= lo <= hi -> hi <= size v ->
  map (elt v) (indices_up lo hi) = slice v lo hi.
Proof.
  intros Hlo Hhi. unfold indices_up, slice, elt, size in *.
  rewrite map_map.
  rewrite <- map_nth_seq by lia.
  apply map_ext. intros k. f_equal. lia.
Qed.

Lemma indices_down_rev_nat (c : nat) (hi : Z) :
  map (fun k => hi - Z.of_nat k) (seq 0 c)
  = rev (map (fun k => hi - Z.of_nat c + 1 + Z.of_nat k) (seq 0 c)).
Proof.
  revert hi. induction c as [| c IH]; intros hi; [reflexivity |].
  rewrite seq_S at 2. rewrite map_app, rev_app_distr. cbn [map rev app seq].
  f_equal; [lia |].
  rewrite <- seq_shift, map_map.
  transitivity (map (fun k => (hi - 1) - Z.of_nat k) (seq 0 c)).
  - apply map_ext. intros k. lia.
  - rewrite IH. f_equal. apply map_ext. intros k. lia.
Qed.

Lemma indices_down_rev (hi lo : Z) :
  indices_down hi lo = rev (indices_up (lo + 1) (hi + 1)).
Proof.
  unfold indices_down, indices_up.
  replace (hi + 1 - (lo + 1)) with (hi - lo) by lia.
  rewrite indices_down_rev_nat. f_equal.
  apply map_ext_in. intros k Hk. apply in_seq in Hk. lia.
Qed.

Lemma ofold_window (v : list float) (l : list Z) (acc : list float) :
  (forall e, In e l -> 0 <= e < size v) ->
  ofold (window_body v) l acc = Ret (acc ++ map (elt v) l).
Proof.
  revert acc. induction l as [| e l IH]; intros acc H; cbn [ofold map].
  - rewrite app_nil_r. reflexivity.
  - unfold window_body at 1. rewrite at_in_range by (apply H; left; reflexivity).
    cbn [obind]. rewrite IH by (intros e' He'; apply H; right; exact He').
    rewrite <- app_assoc. reflexivity.
Qed.

Lemma pointsForAverage_bounds (cfg : Config) :
  0 <= pointsForAverage cfg /\ 2 * pointsForAverage cfg < 2 ^ 32.
Proof.
  unfold pointsForAverage.
  pose proof (wrap32_range (fDedxLength cfg - fMinTrackPoints cfg)) as Hw.
  pose proof (Z.div_pos _ 3 (proj1 Hw) ltac:(lia)).
  pose proof (Z.mul_div_le (wrap32 (fDedxLength cfg - fMinTrackPoints cfg)) 3
                ltac:(lia)).
  lia.
Qed.

Lemma pointsForAverage_no_wrap (cfg : Config) :
  config_wf cfg -> fMinTrackPoints cfg <= fDedxLength cfg ->
  pointsForAverage cfg = (fDedxLength cfg - fMinTrackPoints cfg) / 3.
Proof.
  intros [Hm Ht] Hle. unfold pointsForAverage.
  rewrite wrap32_small by lia. reflexivity.
Qed.

Lemma windowIndices_no_wrap (cfg : Config) (dedxVector : list float) :
  size dedxVector < 2 ^ 32 ->
  2 * pointsForAverage cfg < size dedxVector ->
  windowIndices cfg dedxVector
  = indices_down (size dedxVector - 1 - pointsForAverage cfg)
                 (size dedxVector - 1 - 2 * pointsForAverage cfg).
Proof.
  intros Hn Hp. pose proof (pointsForAverage_bounds cfg) as [Hp0 Hp1].
  unfold windowIndices, avStart, avEnd.
  rewrite (wrap32_small (2 * pointsForAverage cfg)) by lia.
  rewrite !wrap32_small by lia. reflexivity.
Qed.

(** The window the loop collects, when no index wraps around. *)
Lemma dedxWindow_no_wrap (cfg : Config) (dedxVector : list float) :
  size dedxVector < 2 ^ 32 ->
  2 * pointsForAverage cfg < size dedxVector ->
  dedxWindow cfg dedxVector
  = Ret (rev (slice dedxVector
                (size dedxVector - 2 * pointsForAverage cfg)
                (size dedxVector - pointsForAverage cfg))).
Proof.
  intros Hn Hp. pose proof (pointsForAverage_bounds cfg) as [Hp0 Hp1].
  unfold dedxWindow. rewrite windowIndices_no_wrap by assumption.
  rewrite ofold_window.
  - cbn [app]. rewrite indices_down_rev, map_rev.
    rewrite map_elt_indices_up by lia.
    do 3 f_equal; lia.
  - intros e He. apply in_indices_down in He. lia.
Qed.

(** C3 (as amended).  For a cleaned sequence of [n >= fMinTrackPoints]
    elements, with [p = pointsForAverage] (which is
    [(fDedxLength - fMinTrackPoints) / 3] when [fMinTrackPoints <=
    fDedxLength]) and [2p < n], so that no index wraps around: the loop
    visits exactly the indices [i] with [n-1-2p < i <= n-1-p], each once,
    and the mean and the standard deviation are taken over the elements at
    [[n-2p, n-p)], read from the last one down. *)
Theorem C3_window_is_shifted_by_one (cfg : Config) (dedxVector : list float) :
  fMinTrackPoints cfg <= size dedxVector < 2 ^ 32 ->
  2 * pointsForAverage cfg < size dedxVector ->
  let p := pointsForAverage cfg in
  let n := size dedxVector in
  (config_wf cfg -> fMinTrackPoints cfg <= fDedxLength cfg ->
     p = (fDedxLength cfg - fMinTrackPoints cfg) / 3) /\
  (forall i, In i (windowIndices cfg dedxVector) <-> n - 1 - 2 * p < i <= n - 1 - p) /\
  NoDup (windowIndices cfg dedxVector) /\
  dedxWindow cfg dedxVector = Ret (rev (slice dedxVector (n - 2 * p) (n - p))).
Proof.
  intros Hn Hp p n. subst p n.
  split; [| split; [| split]].
  - intros Hwf Hle. apply pointsForAverage_no_wrap; assumption.
  - intros i. rewrite windowIndices_no_wrap by lia.
    rewrite in_indices_down. lia.
  - rewrite windowIndices_no_wrap by lia. unfold indices_down.
    apply Finite.Injective_map_NoDup; [| apply seq_NoDup].
    intros a b Hab. lia.
  - apply dedxWindow_no_wrap; lia.
Qed.

(** C3 (the claim as worded fails).  On the cleaned sequence
    0, 1, ..., 49 with the default configuration ([p = 16], [n = 50]) the
    loop reads the indices 33 down to 18: index 33 is read although it is
    outside [[17, 33)], index 17 is inside and is not read, and the mean
    over the window differs from the mean over [[17, 33)]. *)
Lemma C3_window_is_not_the_claimed_range :
  let dedx := ramp 50 in
  fMinTrackPoints defaultConfig <= size dedx /\
  SmoothDedxVector defaultConfig dedx = Ret dedx /\
  pointsForAverage defaultConfig = 16 /\
  claimed_window_indices defaultConfig dedx = indices_up 17 33 /\
  windowIndices defaultConfig dedx = indices_down 33 17 /\
  (In 33 (windowIndices defaultConfig dedx) /\
   ~ In 33 (claimed_window_indices defaultConfig dedx)) /\
  (In 17 (claimed_window_indices defaultConfig dedx) /\
   ~ In 17 (windowIndices defaultConfig dedx)) /\
  exists dedxTrunc,
    dedxWindow defaultConfig dedx = Ret dedxTrunc /\
    ~ Permutation dedxTrunc (slice dedx 17 33) /\
    fst (GetDedxMeanAndSigma dedxTrunc)
      <> fst (GetDedxMeanAndSigma (slice dedx 17 33)).
Proof.
  cbv zeta.
  split; [vm_compute; discriminate |].
  split; [vm_compute; reflexivity |].
  split; [vm_compute; reflexivity |].
  split; [vm_compute; reflexivity |].
  split; [vm_compute; reflexivity |].
  split.
  { split; [apply in_indices_down; vm_compute; split; [reflexivity | discriminate] |].
    intros H. apply in_indices_up in H. vm_compute in H.
    destruct H as [_ H]. discriminate. }
  split.
  { split; [apply in_indices_up; vm_compute; split; [discriminate | reflexivity] |].
    intros H. apply in_indices_down in H. vm_compute in H.
    destruct H as [H _]. discriminate. }
  eexists. split; [vm_compute; reflexivity |].
  split.
  - intros H.
    apply (Permutation_in (F32.of_Z 33)) in H.
    + vm_compute in H.
      repeat (destruct H as [H | H]; [discriminate |]). exact H.
    + vm_compute. left. reflexivity.
  - vm_compute. discriminate.
Qed.

(* ================================================================== *)
(** ** GetNetworkInputs: the three ways through the function *)

Ltac traced_step :=
  cbv beta iota delta [tbind inline invoke tret fst snd].

Section Assembler.

Context {TVector3 : Type}.
Variable Angle : TVector3 -> TVector3 -> float.
Variable gaussDist : float -> float -> list float.

Lemma GetNetworkInputs_not_track (cfg : Config) (part : PFParticle TVector3) :
  IsTrack part = false ->
  GetNetworkInputs Angle gaussDist cfg part = ([], Ret []).
Proof. intros H. unfold GetNetworkInputs. rewrite H. reflexivity. Qed.

Lemma GetNetworkInputs_too_few (cfg : Config) (part : PFParticle TVector3) :
  size (dEdx part) < fMinTrackPoints cfg ->
  GetNetworkInputs Angle gaussDist cfg part = ([], Ret []).
Proof.
  intros H. unfold GetNetworkInputs.
  destruct (negb (IsTrack part)); [reflexivity |].
  apply Z.ltb_lt in H. rewrite H. reflexivity.
Qed.

(** Past the two early returns the padding test is false, and the
    outcome is that of the three steps that can fail. *)
Lemma GetNetworkInputs_valid (cfg : Config) (part : PFParticle TVector3) :
  IsTrack part = true ->
  fMinTrackPoints cfg <= size (dEdx part) ->
  GetNetworkInputs Angle gaussDist cfg part
  = match SmoothDedxVector cfg (dEdx part) with
    | Ret cleaned =>
        match dedxWindow cfg cleaned with
        | Ret dedxTrunc =>
            match last_elements cleaned (fDedxLength cfg) with
            | Ret finalInputDedx =>
               ([CallSmoothDedxVector; CallGetDedxMeanAndSigma;
                 CallGetChildParticles; CallGetDeflectionMeanAndSigma],
                Ret [finalInputDedx;
                     [F32.of_Z (fst (fst (GetChildParticles part)));
                      F32.of_Z (snd (fst (GetChildParticles part)));
                      F32.of_Z (snd (GetChildParticles part));
                      fst (GetDedxMeanAndSigma dedxTrunc);
                      snd (GetDedxMeanAndSigma dedxTrunc);
                      fst (GetDeflectionMeanAndSigma Angle (GetTrack part));
                      snd (GetDeflectionMeanAndSigma Angle (GetTrack part))]])
            | Throw e => ([CallSmoothDedxVector; CallGetDedxMeanAndSigma], Throw e)
            | Undefined => ([CallSmoothDedxVector; CallGetDedxMeanAndSigma], Undefined)
            | Blocked => ([CallSmoothDedxVector; CallGetDedxMeanAndSigma], Blocked)
            end
        | Throw e => ([CallSmoothDedxVector], Throw e)
        | Undefined => ([CallSmoothDedxVector], Undefined)
        | Blocked => ([CallSmoothDedxVector], Blocked)
        end
    | Throw e => ([CallSmoothDedxVector], Throw e)
    | Undefined => ([CallSmoothDedxVector], Undefined)
    | Blocked => ([CallSmoothDedxVector], Blocked)
    end.
Proof.
  intros Ht Hn. unfold GetNetworkInputs. rewrite Ht. cbn [negb].
  destruct (size (dEdx part) <? fMinTrackPoints cfg) eqn:E;
    [apply Z.ltb_lt in E; lia |].
  destruct (SmoothDedxVector cfg (dEdx part)) as [cleaned | | |] eqn:Es;
    try reflexivity.
  pose proof (SmoothDedxVector_size _ _ _ Es) as Hsz.
  unfold tbind at 1. cbn [invoke snd fst].
  destruct (dedxWindow cfg cleaned) as [dedxTrunc | | |] eqn:Ew; try reflexivity.
  rewrite Hsz, E. traced_step.
  destruct (GetDedxMeanAndSigma dedxTrunc) as [dedxMean dedxSigma]. traced_step.
  destruct (last_elements cleaned (fDedxLength cfg)); try reflexivity.
  destruct (GetChildParticles part) as [[nTrack nShower] nGrand]. traced_step.
  destruct (GetDeflectionMeanAndSigma Angle (GetTrack part)) as [dm ds].
  reflexivity.
Qed.

(** A result that is not empty comes from the third way. *)
Lemma GetNetworkInputs_success (cfg : Config) (part : PFParticle TVector3)
    (r : list (list float)) :
  snd (GetNetworkInputs Angle gaussDist cfg part) = Ret r -> r <> [] ->
  exists cleaned dedxTrunc finalInputDedx,
    IsTrack part = true /\
    fMinTrackPoints cfg <= size (dEdx part) /\
    SmoothDedxVector cfg (dEdx part) = Ret cleaned /\
    dedxWindow cfg cleaned = Ret dedxTrunc /\
    last_elements cleaned (fDedxLength cfg) = Ret finalInputDedx /\
    r = [finalInputDedx;
         [F32.of_Z (fst (fst (GetChildParticles part)));
          F32.of_Z (snd (fst (GetChildParticles part)));
          F32.of_Z (snd (GetChildParticles part));
          fst (GetDedxMeanAndSigma dedxTrunc);
          snd (GetDedxMeanAndSigma dedxTrunc);
          fst (GetDeflectionMeanAndSigma Angle (GetTrack part));
          snd (GetDeflectionMeanAndSigma Angle (GetTrack part))]].
Proof.
  intros Hr Hne.
  destruct (IsTrack part) eqn:Ht.
  2:{ rewrite GetNetworkInputs_not_track in Hr by exact Ht.
      injection Hr as <-. contradiction. }
  destruct (Z.lt_ge_cases (size (dEdx part)) (fMinTrackPoints cfg)) as [Hlt | Hge].
  { rewrite GetNetworkInputs_too_few in Hr by exact Hlt.
    injection Hr as <-. contradiction. }
  rewrite GetNetworkInputs_valid in Hr by assumption.
  destruct (SmoothDedxVector cfg (dEdx part)) as [cleaned | | |] eqn:Es;
    try discriminate.
  destruct (dedxWindow cfg cleaned) as [dedxTrunc | | |] eqn:Ew;
    try discriminate.
  destruct (last_elements cleaned (fDedxLength cfg)) as [fin | | |] eqn:El;
    try discriminate.
  injection Hr as <-.
  exists cleaned, dedxTrunc, fin. repeat split; assumption || reflexivity.
Qed.

Lemma last_elements_size (v w : list float) (n : Z) :
  0 <= n -> last_elements v n = Ret w ->
  size w = n /\ n <= size v /\ w = skipn (Z.to_nat (size v - n)) v.
Proof.
  unfold last_elements. intros Hn H.
  destruct (n <=? size v) eqn:E; [| discriminate].
  apply Z.leb_le in E. injection H as <-.
  repeat split; [| exact E].
  unfold size in *. rewrite length_skipn. lia.
Qed.

Lemma last_elements_short (v : list float) (n : Z) :
  size v < n -> last_elements v n = Undefined.
Proof.
  intros H. unfold last_elements.
  destruct (n <=? size v) eqn:E; [apply Z.leb_le in E; lia | reflexivity].
Qed.

(** Whenever a sample vector comes back, it has [fDedxLength] elements,
    and the input had at least [fDedxLength] samples. *)
Lemma GetNetworkInputs_sample_vector_size (cfg : Config) (part : PFParticle TVector3)
    (r : list (list float)) :
  0 <= fDedxLength cfg ->
  snd (GetNetworkInputs Angle gaussDist cfg part) = Ret r -> r <> [] ->
  size (nth 0 r []) = fDedxLength cfg /\ fDedxLength cfg <= size (dEdx part).
Proof.
  intros Ht Hr Hne.
  destruct (GetNetworkInputs_success _ _ _ Hr Hne)
    as (cleaned & dedxTrunc & fin & _ & _ & Hs & _ & Hl & ->).
  apply last_elements_size in Hl; [| exact Ht].
  apply SmoothDedxVector_size in Hs. cbn [nth]. lia.
Qed.

(** A sample sequence of at least [fMinTrackPoints] and fewer than
    [fDedxLength] elements: the function does not return. *)
Lemma GetNetworkInputs_between (cfg : Config) (part : PFParticle TVector3) :
  IsTrack part = true ->
  fMinTrackPoints cfg <= size (dEdx part) < fDedxLength cfg ->
  forall r, snd (GetNetworkInputs Angle gaussDist cfg part) <> Ret r.
Proof.
  intros Ht Hn r Hr.
  rewrite GetNetworkInputs_valid in Hr by (assumption || lia).
  destruct (SmoothDedxVector cfg (dEdx part)) as [cleaned | | |] eqn:Es;
    try discriminate.
  apply SmoothDedxVector_size in Es.
  destruct (dedxWindow cfg cleaned) as [dedxTrunc | | |]; try discriminate.
  rewrite last_elements_short in Hr by lia. discriminate.
Qed.

End Assembler.

(* ================================================================== *)
(** ** C6: the two rejections *)

Section AssemblerClaims.

Context {TVector3 : Type}.
Variable Angle : TVector3 -> TVector3 -> float.
Variable gaussDist : float -> float -> list float.

(** C6.  When the particle is not track-like, or its sample sequence has
    fewer than [fMinTrackPoints] elements, [GetNetworkInputs] returns the
    empty vector: the outcome is a normal return, not an exception, and no
    member function has been called. *)
Theorem C6_rejections_return_empty (cfg : Config) (part : PFParticle TVector3) :
  IsTrack part = false \/ size (dEdx part) < fMinTrackPoints cfg ->
  GetNetworkInputs Angle gaussDist cfg part = ([], Ret []) /\
  (forall e, snd (GetNetworkInputs Angle gaussDist cfg part) <> Throw e).
Proof.
  intros H.
  assert (E : GetNetworkInputs Angle gaussDist cfg part = ([], Ret [])).
  { destruct H as [H | H].
    - apply GetNetworkInputs_not_track. exact H.
    - apply GetNetworkInputs_too_few. exact H. }
  split; [exact E |].
  intros e. rewrite E. discriminate.
Qed.

(* ================================================================== *)
(** ** C5: the padding branch *)

(** C5.  [PadDedxVector] is not among the calls of any execution of
    [GetNetworkInputs]: past the early return the cleaned sequence has at
    least [fMinTrackPoints] elements, so the test of the padding branch is
    false; the outcome does not depend on the generator's draws, and the
    sample vector of a result is a tail of the cleaned sequence. *)
Theorem C5_PadDedxVector_is_never_invoked (cfg : Config) (part : PFParticle TVector3) :
  ~ In CallPadDedxVector (fst (GetNetworkInputs Angle gaussDist cfg part)) /\
  (forall cleaned,
     (size (dEdx part) <? fMinTrackPoints cfg) = false ->
     SmoothDedxVector cfg (dEdx part) = Ret cleaned ->
     (size cleaned <? fMinTrackPoints cfg) = false) /\
  (forall gaussDist',
     GetNetworkInputs Angle gaussDist' cfg part
     = GetNetworkInputs Angle gaussDist cfg part) /\
  (forall r,
     snd (GetNetworkInputs Angle gaussDist cfg part) = Ret r -> r <> [] ->
     exists cleaned,
       SmoothDedxVector cfg (dEdx part) = Ret cleaned /\
       nth 0 r [] = skipn (Z.to_nat (size cleaned - fDedxLength cfg)) cleaned).
Proof.
  split; [| split; [| split]].
  - destruct (IsTrack part) eqn:Ht.
    2:{ rewrite GetNetworkInputs_not_track by exact Ht. intros []. }
    destruct (Z.lt_ge_cases (size (dEdx part)) (fMinTrackPoints cfg)) as [Hlt | Hge].
    { rewrite GetNetworkInputs_too_few by exact Hlt. intros []. }
    rewrite GetNetworkInputs_valid by assumption.
    destruct (SmoothDedxVector cfg (dEdx part)) as [cleaned | | |];
      try (cbn; intuition discriminate).
    destruct (dedxWindow cfg cleaned) as [dedxTrunc | | |];
      try (cbn; intuition discriminate).
    destruct (last_elements cleaned (fDedxLength cfg));
      cbn; intuition discriminate.
  - intros cleaned Hguard Hs.
    apply SmoothDedxVector_size in Hs. rewrite Hs. exact Hguard.
  - intros gaussDist'.
    destruct (IsTrack part) eqn:Ht.
    2:{ rewrite !GetNetworkInputs_not_track by exact Ht. reflexivity. }
    destruct (Z.lt_ge_cases (size (dEdx part)) (fMinTrackPoints cfg)) as [Hlt | Hge].
    { rewrite !GetNetworkInputs_too_few by exact Hlt. reflexivity. }
    (* neither side mentions the generator any more *)
    rewrite !GetNetworkInputs_valid by assumption. reflexivity.
  - intros r Hr Hne.
    destruct (GetNetworkInputs_success _ _ _ _ _ Hr Hne)
      as (cleaned & dedxTrunc & fin & _ & _ & Hs & _ & Hl & ->).
    exists cleaned. split; [exact Hs |].
    unfold last_elements in Hl.
    destruct (fDedxLength cfg <=? size cleaned); [| discriminate].
    injection Hl as <-. reflexivity.
Qed.

(* ================================================================== *)
(** ** The slots of the scalar feature vector *)

(** Every result that is not empty has two vectors, and the second has
    exactly seven elements, in this order: [nTrack], [nShower] and
    [nGrand] of [GetChildParticles], converted to [float]; the mean and
    the sigma of [GetDedxMeanAndSigma] on the window of the cleaned
    sequence; the mean and the sigma of [GetDeflectionMeanAndSigma] on
    the track. *)
Lemma GetNetworkInputs_feature_slots (cfg : Config) (part : PFParticle TVector3)
    (r : list (list float)) :
  snd (GetNetworkInputs Angle gaussDist cfg part) = Ret r -> r <> [] ->
  exists cleaned dedxTrunc finalInputDedx,
    SmoothDedxVector cfg (dEdx part) = Ret cleaned /\
    dedxWindow cfg cleaned = Ret dedxTrunc /\
    r = [finalInputDedx;
         [F32.of_Z (fst (fst (GetChildParticles part)));
          F32.of_Z (snd (fst (GetChildParticles part)));
          F32.of_Z (snd (GetChildParticles part));
          fst (GetDedxMeanAndSigma dedxTrunc);
          snd (GetDedxMeanAndSigma dedxTrunc);
          fst (GetDeflectionMeanAndSigma Angle (GetTrack part));
          snd (GetDeflectionMeanAndSigma Angle (GetTrack part))]] /\
    length (nth 1 r []) = 7%nat.
Proof.
  intros Hr Hne.
  destruct (GetNetworkInputs_success _ _ _ _ _ Hr Hne)
    as (cleaned & dedxTrunc & fin & _ & _ & Hs & Hw & _ & ->).
  exists cleaned, dedxTrunc, fin. repeat split; assumption.
Qed.

End AssemblerClaims.

(* ================================================================== *)
(** ** C2: the length of the sample vector *)

(** C2 (the code departs from the claim).  The claim: a sample sequence
    of at least [fMinTrackPoints] elements always yields a sample vector
    of [fDedxLength] elements.  With the default configuration and a
    track of 50 or of 51 samples of value 10, the padding test
    [dedxVector.size() < fMinTrackPoints] is false, nothing is padded,
    and [dedxVector.end() - fDedxLength] lies before [begin()]: the
    behaviour is undefined and no vector is returned.  At 100 and at 150
    samples the vector has 100 elements. *)
Theorem C2_no_sample_vector_between_min_and_target :
  let run (n : nat) :=
    GetNetworkInputs no_angle steady_draws defaultConfig
      (track_particle (repeat (F32.of_Z 10) n) []) in
  run 50%nat = ([CallSmoothDedxVector; CallGetDedxMeanAndSigma], Undefined) /\
  run 51%nat = ([CallSmoothDedxVector; CallGetDedxMeanAndSigma], Undefined) /\
  (exists vars, snd (run 100%nat) = Ret [repeat (F32.of_Z 10) 100; vars]) /\
  (exists vars, snd (run 150%nat) = Ret [repeat (F32.of_Z 10) 100; vars]).
Proof.
  cbv zeta. split; [| split; [| split]].
  - vm_compute. reflexivity.
  - vm_compute. reflexivity.
  - eexists. vm_compute. reflexivity.
  - eexists. vm_compute. reflexivity.
Qed.

(* ================================================================== *)
(** ** C4: the counts of GetChildParticles *)

Section Topology.

Context {TVector3 : Type}.

Lemma children_loop (part : PFParticle TVector3) (children : list (PFParticle TVector3)) :
  forall nTrack nShower nGrand,
    0 <= nTrack < 2 ^ 32 -> 0 <= nShower < 2 ^ 32 -> 0 <= nGrand < 2 ^ 32 ->
    fold_left (children_body part) children (nTrack, nShower, nGrand)
    = (wrap32 (nTrack + Z.b2z (IsTrack part) * Z.of_nat (length children)),
       wrap32 (nShower + Z.b2z (IsShower part) * Z.of_nat (length children)),
       wrap32 (nGrand + fold_right Z.add 0 (map NumDaughters children))).
Proof.
  induction children as [| child rest IH]; intros nTrack nShower nGrand Ht Hs Hg.
  - cbn. rewrite !Z.mul_0_r, !Z.add_0_r, !wrap32_small by assumption.
    reflexivity.
  - cbn [fold_left map fold_right length]. unfold children_body at 2.
    rewrite IH by apply wrap32_range.
    unfold wrap32. rewrite !Zplus_mod_idemp_l, Nat2Z.inj_succ.
    f_equal; [f_equal |]; f_equal; ring.
Qed.

(** What the loop computes: the number of children, multiplied by the
    classification of the parent, and the sum of the children's own
    child counts. *)
Lemma GetChildParticles_counts (part : PFParticle TVector3) :
  GetChildParticles part
  = (wrap32 (Z.b2z (IsTrack part) * Z.of_nat (length (GetChildren part))),
     wrap32 (Z.b2z (IsShower part) * Z.of_nat (length (GetChildren part))),
     wrap32 (fold_right Z.add 0 (map NumDaughters (GetChildren part)))).
Proof.
  unfold GetChildParticles. rewrite children_loop by lia. reflexivity.
Qed.

End Topology.

(** C4 (the code departs from the claim).  The claim: [nTrack] counts the
    children that are track-like, [nShower] those that are shower-like,
    [nGrand] adds up the children's own child counts.  The loop asks
    [IsTrack] and [IsShower] of [part], not of [child]: for a track-like
    particle whose only child is shower-like and has two children, the
    code returns (1, 0, 2) where the claim asks for (0, 1, 2).  The third
    count is as claimed. *)
Theorem C4_children_are_classified_by_the_parent :
  let child := shower_particle [shower_particle []; shower_particle []] in
  let part := track_particle [] [child] in
  GetChildParticles part = (1, 0, 2) /\
  countChildren_spec part = (0, 1, 2) /\
  snd (GetChildParticles part) = snd (countChildren_spec part).
Proof. cbv zeta. repeat split; vm_compute; reflexivity. Qed.

(* ================================================================== *)
(** ** C9: the padded values *)

Lemma not_negative_is_nonnegative (r : float) :
  F32.is_nan r = false -> F32.ltb r F32.zero = false ->
  F32.leb F32.zero r = true.
Proof.
  destruct r as [s | s | | s m e]; cbn; intros Hn Hl;
    try reflexivity; try discriminate; destruct s; try reflexivity;
    discriminate.
Qed.

Section Padding.

Variable cfg : Config.
Variable originalSize : Z.

(** Whatever the draws, and wherever the loop stands when they end: the
    vector is the one it started from with accepted draws in front, and
    an accepted draw is not below zero. *)
Lemma pad_loop_prepends (draws : list float) :
  forall (h : Z) (dedx : list float),
  exists synthetic,
    fst (pad_loop cfg originalSize draws h dedx) = synthetic ++ dedx /\
    Forall (fun v => In v draws /\ F32.ltb v F32.zero = false) synthetic.
Proof.
  induction draws as [| randVal draws IH]; intros h dedx; cbn [pad_loop].
  - exists []. destruct (wrap32 (h + originalSize) <? fDedxLength cfg);
      split; (reflexivity || constructor).
  - destruct (wrap32 (h + originalSize) <? fDedxLength cfg).
    2:{ exists []. split; [reflexivity | constructor]. }
    destruct (F32.ltb randVal F32.zero) eqn:Eneg.
    + destruct (IH h dedx) as (syn & Hfst & Hall).
      exists syn. split; [exact Hfst |].
      eapply Forall_impl; [| exact Hall].
      intros v [Hin Hv]. split; [right; exact Hin | exact Hv].
    + destruct (IH (wrap32 (h + 1)) (randVal :: dedx)) as (syn & Hfst & Hall).
      exists (syn ++ [randVal]). split.
      * rewrite Hfst, <- app_assoc. reflexivity.
      * apply Forall_app. split.
        -- eapply Forall_impl; [| exact Hall].
           intros v [Hin Hv]. split; [right; exact Hin | exact Hv].
        -- constructor; [| constructor].
           split; [left; reflexivity | exact Eneg].
Qed.

(** With enough draws that are not below zero the loop leaves, and the
    vector has [fDedxLength] elements. *)
Lemma pad_loop_finishes (draws : list float) :
  forall (h : Z) (dedx : list float),
    0 <= h -> 0 <= originalSize ->
    h + originalSize <= fDedxLength cfg < 2 ^ 32 ->
    size dedx = h + originalSize ->
    fDedxLength cfg - (h + originalSize) <= accepted draws ->
    snd (pad_loop cfg originalSize draws h dedx) = true /\
    size (fst (pad_loop cfg originalSize draws h dedx)) = fDedxLength cfg.
Proof.
  unfold accepted.
  induction draws as [| randVal draws IH]; intros h dedx Hh Ho Hle Hsz Hacc;
    cbn [pad_loop]; rewrite (wrap32_small (h + originalSize)) by lia.
  - cbn in Hacc.
    destruct (h + originalSize <? fDedxLength cfg) eqn:E;
      [apply Z.ltb_lt in E; lia | apply Z.ltb_ge in E; cbn; split; [reflexivity | lia]].
  - destruct (h + originalSize <? fDedxLength cfg) eqn:E.
    2:{ apply Z.ltb_ge in E. cbn. split; [reflexivity | lia]. }
    apply Z.ltb_lt in E. cbn [filter] in Hacc.
    destruct (F32.ltb randVal F32.zero) eqn:Eneg; cbn [negb] in Hacc.
    + apply IH; assumption.
    + cbn [length] in Hacc.
      rewrite (wrap32_small (h + 1)) by lia.
      apply IH; try lia.
      unfold size in *. cbn [length]. lia.
Qed.

End Padding.

(** C9 (as amended).  For every mean and sigma and every sequence of
    draws of the generator: the vector [PadDedxVector] builds is the one it
    was given with drawn values in front; none of them is below zero (a
    negative draw is drawn again and never inserted), and each that is a
    number is at least zero.  This holds at every point the loop reaches,
    also when it has not yet left, and so of every vector the function
    returns. *)
Theorem C9_padded_values_are_not_negative
    (gaussDist : float -> float -> list float)
    (cfg : Config) (dedx : list float) (mean sigma : float) :
  let draws := gaussDist mean sigma in
  (exists synthetic,
     fst (pad_loop cfg (wrap32 (size dedx)) draws 0 dedx) = synthetic ++ dedx /\
     Forall (fun v => In v draws /\ not_negative v) synthetic) /\
  (forall dedx',
     PadDedxVector gaussDist cfg dedx mean sigma = Ret dedx' ->
     exists synthetic,
       dedx' = synthetic ++ dedx /\
       Forall (fun v => In v draws /\ not_negative v) synthetic).
Proof.
  cbv zeta.
  destruct (pad_loop_prepends cfg (wrap32 (size dedx)) (gaussDist mean sigma) 0 dedx)
    as (syn & Hfst & Hall).
  assert (Hall' :
    Forall (fun v => In v (gaussDist mean sigma) /\ not_negative v) syn).
  { eapply Forall_impl; [| exact Hall].
    intros v [Hin Hv]. split; [exact Hin |]. split; [exact Hv |].
    intros Hnan. apply not_negative_is_nonnegative; assumption. }
  split.
  - exists syn. split; assumption.
  - intros dedx' Hret. unfold PadDedxVector in Hret.
    destruct (pad_loop cfg (wrap32 (size dedx)) (gaussDist mean sigma) 0 dedx)
      as [padded finished].
    destruct finished; [| discriminate].
    injection Hret as <-. exists syn. split; [exact Hfst | exact Hall'].
Qed.

(** C9 (the claim as worded fails).  A generator with mean NaN yields
    NaN; the test [randVal < 0] is false for it, so it is inserted, and it
    is not at least zero: with a target length of 4, the vector 7, 8 comes
    back as NaN, NaN, 7, 8. *)
Lemma C9_nan_draw_is_inserted :
  let cfg := mkConfig 1 4 (F32.of_Z 1000) (F32.of_Z 500) in
  steady_draws S754_nan F32.zero = repeat S754_nan 200 /\
  PadDedxVector steady_draws cfg (map F32.of_Z [7; 8]) S754_nan F32.zero
  = Ret ([S754_nan; S754_nan] ++ map F32.of_Z [7; 8]) /\
  F32.ltb S754_nan F32.zero = false /\
  F32.leb F32.zero S754_nan = false /\
  ~ Forall (fun v => F32.leb F32.zero v = true) [S754_nan; S754_nan].
Proof.
  cbv zeta. repeat split; try (vm_compute; reflexivity).
  intros H. inversion H as [| v l Hv Hl]. vm_compute in Hv. discriminate.
Qed.

(** When no draw is NaN, every value in front of the returned vector is
    at least zero. *)
Lemma PadDedxVector_values_nonnegative
    (gaussDist : float -> float -> list float)
    (cfg : Config) (dedx dedx' : list float) (mean sigma : float) :
  Forall (fun r => F32.is_nan r = false) (gaussDist mean sigma) ->
  PadDedxVector gaussDist cfg dedx mean sigma = Ret dedx' ->
  exists synthetic,
    dedx' = synthetic ++ dedx /\
    Forall (fun v => F32.leb F32.zero v = true) synthetic.
Proof.
  intros Hnum Hret. unfold PadDedxVector in Hret.
  destruct (pad_loop_prepends cfg (wrap32 (size dedx)) (gaussDist mean sigma) 0 dedx)
    as (syn & Hfst & Hall).
  destruct (pad_loop cfg (wrap32 (size dedx)) (gaussDist mean sigma) 0 dedx)
    as [padded finished].
  destruct finished; [| discriminate].
  injection Hret as <-. exists syn. split; [exact Hfst |].
  rewrite Forall_forall in *. intros v Hv.
  destruct (Hall v Hv) as [Hin Hneg].
  apply not_negative_is_nonnegative; [apply Hnum; exact Hin | exact Hneg].
Qed.

(** [PadDedxVector] returns once the generator has produced enough draws
    that are not below zero, and the vector then has [fDedxLength]
    elements. *)
Lemma PadDedxVector_returns (gaussDist : float -> float -> list float)
    (cfg : Config) (dedx : list float) (mean sigma : float) :
  size dedx <= fDedxLength cfg < 2 ^ 32 ->
  fDedxLength cfg - size dedx <= accepted (gaussDist mean sigma) ->
  exists dedx',
    PadDedxVector gaussDist cfg dedx mean sigma = Ret dedx' /\
    size dedx' = fDedxLength cfg.
Proof.
  intros Hn Hacc. unfold PadDedxVector.
  assert (Hs : 0 <= size dedx) by (unfold size; lia).
  destruct (pad_loop_finishes cfg (wrap32 (size dedx)) (gaussDist mean sigma) 0 dedx)
    as [Hfin Hsz]; rewrite ?wrap32_small by lia; try lia.
  rewrite (wrap32_small (size dedx)) in Hfin, Hsz by lia.
  destruct (pad_loop cfg (size dedx) (gaussDist mean sigma) 0 dedx)
    as [padded finished].
  cbn in Hfin, Hsz. subst finished.
  exists padded. split; [reflexivity | exact Hsz].
Qed.

(* ================================================================== *)
(** ** C7: GetDedxMeanAndSigma *)

(** *** Rounding keeps a positive integer positive *)

Lemma shr_1_m (mrs : shr_record) :
  0 <= shr_m mrs -> shr_m (shr_1 mrs) = shr_m mrs / 2.
Proof.
  destruct mrs as [m r s]. cbn [shr_m]. intros Hm.
  destruct m as [| p | p]; [reflexivity | | lia].
  destruct p as [p | p |]; cbn [shr_1 shr_m].
  - rewrite Pos2Z.inj_xI. apply Z.div_unique with (r := 1); lia.
  - rewrite Pos2Z.inj_xO. apply Z.div_unique with (r := 0); lia.
  - reflexivity.
Qed.

Lemma iter_shr_1_m (n : positive) :
  forall mrs, 0 <= shr_m mrs ->
    shr_m (iter_pos shr_1 n mrs) = shr_m mrs / 2 ^ Zpos n.
Proof.
  induction n as [n IH | n IH |]; intros mrs Hm; cbn [iter_pos].
  - assert (H1 : 0 <= shr_m (shr_1 mrs)) by (rewrite shr_1_m by lia; apply Z.div_pos; lia).
    assert (H2 : 0 <= shr_m (iter_pos shr_1 n (shr_1 mrs)))
      by (rewrite IH by lia; apply Z.div_pos; lia).
    rewrite IH, IH, shr_1_m by lia.
    rewrite !Z.div_div by lia.
    f_equal. rewrite Pos2Z.inj_xI.
    rewrite <- !Z.pow_add_r, <- (Z.pow_1_r 2) at 1 by lia.
    rewrite <- Z.pow_add_r by lia. f_equal. lia.
  - assert (H2 : 0 <= shr_m (iter_pos shr_1 n mrs))
      by (rewrite IH by lia; apply Z.div_pos; lia).
    rewrite IH, IH by lia.
    rewrite !Z.div_div by lia.
    f_equal. rewrite Pos2Z.inj_xO.
    rewrite <- !Z.pow_add_r by lia. f_equal. lia.
  - rewrite shr_1_m by lia. reflexivity.
Qed.

Lemma digits2_pos_lower (m : positive) :
  2 ^ (Zpos (digits2_pos m) - 1) <= Zpos m.
Proof.
  induction m as [m IH | m IH |]; cbn [digits2_pos].
  - rewrite Pos2Z.inj_succ. change (Zpos m~1) with (2 * Zpos m + 1).
    replace (Z.succ (Zpos (digits2_pos m)) - 1)
      with (Z.succ (Zpos (digits2_pos m) - 1)) by lia.
    rewrite Z.pow_succ_r by lia. lia.
  - rewrite Pos2Z.inj_succ. change (Zpos m~0) with (2 * Zpos m).
    replace (Z.succ (Zpos (digits2_pos m)) - 1)
      with (Z.succ (Zpos (digits2_pos m) - 1)) by lia.
    rewrite Z.pow_succ_r by lia. lia.
  - cbn. lia.
Qed.

Lemma shr_keeps_positive (m e n : Z) (l : location) :
  0 < m -> n <= Zdigits2 m - 1 ->
  0 < shr_m (fst (shr (shr_record_of_loc m l) e n)).
Proof.
  intros Hm Hn.
  assert (Hrec : shr_m (shr_record_of_loc m l) = m)
    by (destruct l as [| []]; reflexivity).
  destruct n as [| n | n]; cbn [shr fst]; try (rewrite Hrec; exact Hm).
  rewrite iter_shr_1_m by (rewrite Hrec; lia). rewrite Hrec.
  destruct m as [| m | m]; try lia. cbn [Zdigits2] in Hn.
  pose proof (digits2_pos_lower m) as Hd.
  apply Z.div_str_pos. split; [apply Z.pow_pos_nonneg; lia |].
  apply Z.le_trans with (2 ^ (Zpos (digits2_pos m) - 1)); [| exact Hd].
  apply Z.pow_le_mono_r; lia.
Qed.

Lemma shr_exponent (mrs : shr_record) (e n : Z) :
  e <= snd (shr mrs e n).
Proof. destruct n; cbn; lia. Qed.

Lemma shr_fexp_positive (m e : Z) (l : location) :
  0 < m -> emin F32.prec F32.emax <= e ->
  0 < shr_m (fst (shr_fexp F32.prec F32.emax m e l)) /\
  emin F32.prec F32.emax <= snd (shr_fexp F32.prec F32.emax m e l).
Proof.
  intros Hm He. unfold shr_fexp. split.
  - apply shr_keeps_positive; [exact Hm |].
    assert (0 < Zdigits2 m) by (destruct m; cbn; lia).
    unfold fexp, emin, F32.prec, F32.emax in *. lia.
  - pose proof (shr_exponent (shr_record_of_loc m l) e
                  (fexp F32.prec F32.emax (Zdigits2 m + e) - e)). lia.
Qed.

Lemma round_nearest_even_positive (m : Z) (l : location) :
  0 < m -> 0 < round_nearest_even m l.
Proof.
  intros Hm. destruct l as [| []]; cbn; try lia.
  destruct (Z.even m); lia.
Qed.

(** Rounding a positive mantissa at an exponent that is not below the
    least one gives a number of the same sign or an infinity. *)
Lemma binary_round_aux_sign (sx : bool) (m e : Z) (l : location) :
  0 < m -> emin F32.prec F32.emax <= e ->
  (exists m' e', binary_round_aux F32.prec F32.emax sx m e l = S754_finite sx m' e')
  \/ binary_round_aux F32.prec F32.emax sx m e l = S754_infinity sx.
Proof.
  intros Hm He. unfold binary_round_aux.
  pose proof (shr_fexp_positive m e l Hm He) as [H1 H1e].
  destruct (shr_fexp F32.prec F32.emax m e l) as [mrs' e'].
  cbn [fst snd] in H1, H1e.
  pose proof (round_nearest_even_positive (shr_m mrs') (loc_of_shr_record mrs') H1) as H2.
  pose proof (shr_fexp_positive _ e' loc_Exact H2 H1e) as [H3 _].
  destruct (shr_fexp F32.prec F32.emax
              (round_nearest_even (shr_m mrs') (loc_of_shr_record mrs')) e' loc_Exact)
    as [mrs'' e''].
  cbn [fst] in H3.
  destruct (shr_m mrs'') as [| m'' | m'']; try lia.
  destruct (e'' <=? F32.emax - F32.prec); [left; eauto | right; reflexivity].
Qed.

Lemma of_Z_positive (p : positive) :
  (exists m e, F32.of_Z (Zpos p) = S754_finite false m e)
  \/ F32.of_Z (Zpos p) = S754_infinity false.
Proof.
  unfold F32.of_Z, binary_normalize, binary_round.
  destruct (shl_align p 0 (fexp F32.prec F32.emax (Zpos (digits2_pos p) + 0)))
    as [mz ez] eqn:E.
  apply binary_round_aux_sign; [lia |].
  unfold shl_align in E.
  destruct (fexp F32.prec F32.emax (Z.pos (digits2_pos p) + 0) - 0) eqn:E';
    injection E as <- <-;
    unfold fexp, emin, F32.prec, F32.emax in *; lia.
Qed.

(** *** The statistics of a constant sequence *)

Lemma sub_self (v : float) :
  F32.is_finite v = true -> F32.sub v v = F32.zero.
Proof.
  destruct v as [s | s | | s m e]; cbn [F32.is_finite]; intros H;
    try discriminate.
  - destruct s; reflexivity.
  - unfold F32.sub, SFsub. rewrite Z.sub_diag. reflexivity.
Qed.

Lemma div_zero_by_count (n : nat) :
  (0 < n)%nat -> F32.div F32.zero (F32.of_Z (Z.of_nat n)) = F32.zero.
Proof.
  intros Hn. destruct n as [| n]; [lia |].
  change (Z.of_nat (S n)) with (Zpos (Pos.of_succ_nat n)).
  destruct (of_Z_positive (Pos.of_succ_nat n)) as [(m & e & ->) | ->];
    reflexivity.
Qed.

Lemma fold_left_map_fused {A B C : Type} (f : C -> B -> C) (g : A -> B)
    (l : list A) (c : C) :
  fold_left f (map g l) c = fold_left (fun acc x => f acc (g x)) l c.
Proof. revert c. induction l as [| x l IH]; intros c; cbn; [reflexivity | apply IH]. Qed.

Lemma GetDedxMeanAndSigma_spec (dedx : list float) :
  GetDedxMeanAndSigma dedx = (StatSpec.mean dedx, StatSpec.stddev dedx).
Proof.
  unfold GetDedxMeanAndSigma, StatSpec.stddev, StatSpec.mean, StatSpec.sum,
    StatSpec.count, StatSpec.squared_deviation, size.
  rewrite fold_left_map_fused. reflexivity.
Qed.

Lemma constant_squared_deviations (v : float) (n : nat) :
  F32.is_finite v = true ->
  fold_left (fun acc q => F32.add acc (F32.mul (F32.sub v q) (F32.sub v q)))
            (repeat v n) F32.zero = F32.zero.
Proof.
  intros Hv. induction n as [| n IH]; cbn [repeat fold_left]; [reflexivity |].
  rewrite sub_self by exact Hv. exact IH.
Qed.

(** C7 (as amended).  For every non-empty sequence,
    [GetDedxMeanAndSigma] returns the sum divided by the count, and the
    square root of the sum of the squared deviations from that mean
    divided by the count (a division by N, not by N-1), each operation
    being the single-precision one and the sums running from the first
    element on.  For a constant sequence of a finite value [v], the sigma
    is zero whenever the mean that was computed is [v]. *)
Theorem C7_mean_and_population_sigma (dedx : list float) :
  dedx <> [] ->
  GetDedxMeanAndSigma dedx = (StatSpec.mean dedx, StatSpec.stddev dedx) /\
  (forall v,
     F32.is_finite v = true ->
     dedx = repeat v (length dedx) ->
     fst (GetDedxMeanAndSigma dedx) = v ->
     snd (GetDedxMeanAndSigma dedx) = F32.zero).
Proof.
  intros Hne. split; [apply GetDedxMeanAndSigma_spec |].
  intros v Hv Hconst Hmean.
  assert (Hlen : (0 < length dedx)%nat)
    by (destruct dedx; [contradiction | cbn; lia]).
  unfold GetDedxMeanAndSigma in *. cbn [fst snd] in *.
  rewrite Hmean.
  rewrite Hconst at 1.
  rewrite constant_squared_deviations by exact Hv.
  unfold size. rewrite div_zero_by_count by exact Hlen. reflexivity.
Qed.

(** C7 (the claim as worded fails).  Seven samples of value 0.1 (in single
    precision 13421773 * 2^-27): the running sum is rounded, the mean
    comes out as 13421774 * 2^-27, one unit in the last place above the
    value, and the sigma is not zero. *)
Lemma C7_constant_sequence_mean_is_rounded :
  let v := F32.div (F32.of_Z 1) (F32.of_Z 10) in
  let dedx := repeat v 7 in
  v = S754_finite false 13421773 (-27) /\
  fst (GetDedxMeanAndSigma dedx) = S754_finite false 13421774 (-27) /\
  fst (GetDedxMeanAndSigma dedx) <> v /\
  SFeqb (fst (GetDedxMeanAndSigma dedx)) v = false /\
  snd (GetDedxMeanAndSigma dedx) <> F32.zero /\
  SFeqb (snd (GetDedxMeanAndSigma dedx)) F32.zero = false.
Proof.
  cbv zeta. repeat split; try (vm_compute; reflexivity);
    vm_compute; discriminate.
Qed.

(* ================================================================== *)
(** ** The theorems at concrete inputs *)

(** C8 at the sequence 10, 400, 800, 700, 1000. *)
Lemma C8_smooth_is_identity_witness :
  let dedx := map F32.of_Z [10; 400; 800; 700; 1000] in
  SmoothDedxVector defaultConfig dedx = Ret dedx /\
  (forall dedx', SmoothDedxVector defaultConfig dedx = Ret dedx' ->
                 length dedx' = length dedx).
Proof.
  apply (C8_smooth_is_identity_without_jumps defaultConfig
           (map F32.of_Z [10; 400; 800; 700; 1000])).
  - vm_compute. split; [discriminate | reflexivity].
  - repeat constructor; vm_compute; reflexivity.
  - split; [vm_compute; reflexivity |].
    split; [vm_compute; reflexivity |].
    intros q Hq. change (size (map F32.of_Z [10; 400; 800; 700; 1000])) with 5 in Hq.
    assert (Hcases : q = 1 \/ q = 2 \/ q = 3) by lia.
    destruct Hcases as [-> | [-> | ->]]; vm_compute; reflexivity.
Defined.

(** C3 at the sequence 0, 1, ..., 49 and the default configuration. *)
Lemma C3_window_witness :
  (forall i, In i (windowIndices defaultConfig (ramp 50)) <-> 17 < i <= 33) /\
  dedxWindow defaultConfig (ramp 50) = Ret (rev (slice (ramp 50) 18 34)).
Proof.
  pose proof (C3_window_is_shifted_by_one defaultConfig (ramp 50)) as H.
  cbv zeta in H.
  change (pointsForAverage defaultConfig) with 16 in H.
  change (size (ramp 50)) with 50 in H.
  destruct H as (_ & Hidx & _ & Hwin); [vm_compute; split; [discriminate | reflexivity] | reflexivity |].
  split; [exact Hidx | exact Hwin].
Defined.

(** C6 at a track of 49 samples. *)
Lemma C6_rejections_witness :
  GetNetworkInputs no_angle steady_draws defaultConfig
    (track_particle (repeat (F32.of_Z 10) 49) []) = ([], Ret []).
Proof.
  apply (C6_rejections_return_empty no_angle steady_draws defaultConfig
           (track_particle (repeat (F32.of_Z 10) 49) [])).
  right. vm_compute. reflexivity.
Defined.

(** C7 at sixteen samples of value 10: mean 10 and sigma 0. *)
Lemma C7_mean_and_sigma_witness :
  let dedx := repeat (F32.of_Z 10) 16 in
  GetDedxMeanAndSigma dedx = (F32.of_Z 10, F32.zero) /\
  GetDedxMeanAndSigma dedx = (StatSpec.mean dedx, StatSpec.stddev dedx).
Proof.
  cbv zeta.
  destruct (C7_mean_and_population_sigma (repeat (F32.of_Z 10) 16))
    as [Hspec Hconst]; [discriminate |].
  split; [| exact Hspec].
  rewrite (surjective_pairing (GetDedxMeanAndSigma (repeat (F32.of_Z 10) 16))).
  rewrite (Hconst (F32.of_Z 10)); [vm_compute | | |]; reflexivity.
Defined.

(* ================================================================== *)
(** ** SmoothDedxVector: where it is defined *)

Lemma set_in_range (v : list float) (i : Z) (x : float) :
  0 <= i < size v -> exists v', set v i x = Ret v' /\ size v' = size v.
Proof.
  intros H. unfold set. rewrite (in_range_true _ _ H).
  eexists. split; [reflexivity |].
  apply (set_size v _ i x). unfold set. rewrite (in_range_true _ _ H).
  reflexivity.
Qed.

Lemma get_out_of_range (v : list float) (i : Z) :
  size v <= i -> get v i = Undefined.
Proof.
  intros H. unfold get, in_range.
  destruct (i <? size v) eqn:E; [apply Z.ltb_lt in E; lia |].
  rewrite andb_false_r. reflexivity.
Qed.

Lemma smooth_first_defined (cfg : Config) (dedx : list float) :
  3 <= size dedx ->
  exists dedx', smooth_first cfg dedx = Ret dedx' /\ size dedx' = size dedx.
Proof.
  intros Hn. unfold smooth_first.
  rewrite !get_in_range by lia. cbn [obind].
  destruct (F32.gtb _ _).
  - apply set_in_range. lia.
  - exists dedx. split; reflexivity.
Qed.

Lemma smooth_last_defined (cfg : Config) (n : Z) (dedx : list float) :
  3 <= n < 2 ^ 32 -> size dedx = n ->
  exists dedx', smooth_last cfg (wrap32 n) dedx = Ret dedx' /\ size dedx' = n.
Proof.
  intros Hn Hs. unfold smooth_last.
  rewrite (wrap32_small n) by lia.
  rewrite (wrap32_small (n - 1)), (wrap32_small (n - 2)),
    (wrap32_small (n - 3)) by lia.
  rewrite !get_in_range by lia. cbn [obind].
  destruct (F32.gtb _ _).
  - rewrite <- Hs. apply set_in_range. lia.
  - exists dedx. split; [reflexivity | exact Hs].
Qed.

Lemma smooth_body_defined (cfg : Config) (dedx : list float) (q : Z) :
  1 <= q < size dedx - 1 -> size dedx < 2 ^ 32 ->
  exists dedx', smooth_body cfg dedx q = Ret dedx' /\ size dedx' = size dedx.
Proof.
  intros Hq Hn. unfold smooth_body.
  rewrite (wrap32_small (q - 1)), (wrap32_small (q + 1)) by lia.
  rewrite !get_in_range by lia. cbn [obind].
  destruct (F32.gtb _ _).
  - apply set_in_range. lia.
  - exists dedx. split; reflexivity.
Qed.

Lemma ofold_defined {A S : Type} (P : S -> Prop) (body : S -> A -> outcome S)
    (l : list A) :
  (forall s a, In a l -> P s -> exists s', body s a = Ret s' /\ P s') ->
  forall s, P s -> exists s', ofold body l s = Ret s' /\ P s'.
Proof.
  induction l as [| a l IH]; intros Hstep s Hs; cbn [ofold].
  - exists s. split; [reflexivity | exact Hs].
  - destruct (Hstep s a (or_introl eq_refl) Hs) as (s1 & -> & Hs1).
    cbn [obind]. apply IH; [| exact Hs1].
    intros s0 a0 Hin. apply Hstep. right. exact Hin.
Qed.

(** From three elements on no access leaves the vector. *)
Lemma SmoothDedxVector_defined (cfg : Config) (dedx : list float) :
  3 <= size dedx < 2 ^ 32 ->
  exists dedx',
    SmoothDedxVector cfg dedx = Ret dedx' /\ size dedx' = size dedx.
Proof.
  intros Hn. unfold SmoothDedxVector. rewrite clamp_pass_unchanged. cbv zeta.
  destruct (smooth_first_defined cfg dedx ltac:(lia)) as (d1 & -> & H1).
  cbn [obind].
  destruct (smooth_last_defined cfg (size dedx) d1 Hn H1) as (d2 & -> & H2).
  cbn [obind].
  rewrite (wrap32_small (size dedx)), (wrap32_small (size dedx - 1)) by lia.
  destruct (ofold_defined (fun s => size s = size dedx) (smooth_body cfg)
              (indices_up 1 (size dedx - 1))) with (s := d2)
    as (d3 & -> & H3).
  - intros s q Hq Hs. apply in_indices_up in Hq.
    destruct (smooth_body_defined cfg s q) as (s' & Hb & Hs'); try lia.
    exists s'. split; [exact Hb | lia].
  - exact H2.
  - exists d3. split; [reflexivity | exact H3].
Qed.

(** X1.  On a sequence of at least three elements (and fewer than 2^32)
    [SmoothDedxVector] makes no access outside the vector: it returns, and
    the sequence it returns has the length of the one it was given. *)
Theorem X1_smooth_returns_from_three_elements (cfg : Config) (dedx : list float) :
  3 <= size dedx < 2 ^ 32 ->
  exists dedx',
    SmoothDedxVector cfg dedx = Ret dedx' /\ length dedx' = length dedx.
Proof.
  intros Hn.
  destruct (SmoothDedxVector_defined cfg dedx Hn) as (dedx' & Hs & Hsz).
  exists dedx'. split; [exact Hs |]. unfold size in Hsz. lia.
Qed.

(** X2.  Whenever [SmoothDedxVector] returns, whatever the length of its
    input, the length is unchanged. *)
Theorem X2_smooth_keeps_the_length (cfg : Config) (dedx dedx' : list float) :
  SmoothDedxVector cfg dedx = Ret dedx' -> length dedx' = length dedx.
Proof.
  intros H. apply SmoothDedxVector_size in H. unfold size in H. lia.
Qed.

(** X3.  Short vectors.  On an empty vector and on a vector of one
    element the function reads [dedx[0]] or [dedx[1]] outside the vector:
    undefined behaviour.  On two elements it returns them unchanged when
    neither exceeds the other by more than [fQJump], and otherwise reads
    a third element that is not there. *)
Theorem X3_smooth_on_short_vectors (cfg : Config) (a b : float) :
  SmoothDedxVector cfg [] = Undefined /\
  SmoothDedxVector cfg [a] = Undefined /\
  SmoothDedxVector cfg [a; b]
  = if F32.gtb (F32.sub a b) (fQJump cfg) || F32.gtb (F32.sub b a) (fQJump cfg)
    then Undefined else Ret [a; b].
Proof.
  unfold SmoothDedxVector. rewrite !clamp_pass_unchanged. cbv zeta.
  split; [reflexivity |]. split; [reflexivity |].
  unfold smooth_first.
  change (get [a; b] 0) with (Ret a). change (get [a; b] 1) with (Ret b).
  cbn [obind].
  destruct (F32.gtb (F32.sub a b) (fQJump cfg)); [reflexivity |].
  cbn [obind orb]. unfold smooth_last.
  change (wrap32 (size [a; b])) with 2.
  change (wrap32 (2 - 1)) with 1. change (wrap32 (2 - 2)) with 0.
  change (get [a; b] 0) with (Ret a). change (get [a; b] 1) with (Ret b).
  cbn [obind].
  destruct (F32.gtb (F32.sub b a) (fQJump cfg)); reflexivity.
Qed.

(** X4.  The ceiling [fQMax] has no effect on the conditioner: two
    configurations with the same [fQJump] give the same outcome on every
    sequence. *)
Theorem X4_smooth_ignores_fQMax (cfg cfg' : Config) (dedx : list float) :
  fQJump cfg = fQJump cfg' ->
  SmoothDedxVector cfg dedx = SmoothDedxVector cfg' dedx.
Proof.
  intros HJ. unfold SmoothDedxVector. rewrite !clamp_pass_unchanged. cbv zeta.
  unfold smooth_first, smooth_last. rewrite HJ.
  replace (smooth_body cfg) with (smooth_body cfg'); [reflexivity |].
  unfold smooth_body. rewrite HJ. reflexivity.
Qed.

(* ================================================================== *)
(** ** The two statistics functions: signs and edge cases *)

Lemma binary_round_aux_shape (sx : bool) (m e : Z) (l : location) :
  let r := binary_round_aux F32.prec F32.emax sx m e l in
  r = S754_zero sx \/ r = S754_infinity sx \/ r = S754_nan \/
  exists m' e', r = S754_finite sx m' e'.
Proof.
  cbv zeta. unfold binary_round_aux.
  destruct (shr_fexp F32.prec F32.emax m e l) as [mrs' e'].
  destruct (shr_fexp F32.prec F32.emax
              (round_nearest_even (shr_m mrs') (loc_of_shr_record mrs')) e' loc_Exact)
    as [mrs'' e''].
  destruct (shr_m mrs'') as [| m'' | m'']; [left; reflexivity | | right; right; left; reflexivity].
  destruct (e'' <=? F32.emax - F32.prec);
    [right; right; right; eauto | right; left; reflexivity].
Qed.

(** A square root is never below zero. *)
Lemma sqrt_not_negative (x : float) : F32.ltb (F32.sqrt x) F32.zero = false.
Proof.
  destruct x as [s | s | | s m e];
    [destruct s; reflexivity | destruct s; reflexivity | reflexivity |].
  destruct s; [reflexivity |].
  unfold F32.sqrt, SFsqrt.
  destruct (SFsqrt_core_binary F32.prec F32.emax (Zpos m) e) as [[mz ez] lz].
  destruct (binary_round_aux_shape false mz ez lz)
    as [-> | [-> | [-> | (m' & e' & ->)]]]; reflexivity.
Qed.

Lemma sum_of_zeros (n : nat) :
  fold_left (fun acc q => F32.add acc q) (repeat F32.zero n) F32.zero = F32.zero.
Proof. induction n as [| n IH]; [reflexivity | exact IH]. Qed.

Lemma GetDedxMeanAndSigma_zeros (n : nat) :
  (0 < n)%nat ->
  GetDedxMeanAndSigma (repeat F32.zero n) = (F32.zero, F32.zero).
Proof.
  intros Hn. unfold GetDedxMeanAndSigma. cbv zeta.
  rewrite sum_of_zeros. unfold size. rewrite repeat_length.
  rewrite div_zero_by_count by exact Hn.
  rewrite constant_squared_deviations by reflexivity.
  rewrite div_zero_by_count by exact Hn. reflexivity.
Qed.

Section Deflection.

Context {TVector3 : Type}.
Variable Angle : TVector3 -> TVector3 -> float.

Lemma trajAngle_length (track : Track TVector3) :
  length (trajAngle Angle track) = Z.to_nat (NPoints track - 1).
Proof.
  unfold trajAngle, indices_up. rewrite !length_map, length_seq. reflexivity.
Qed.

Lemma track_bounds (track : Track TVector3) : 0 <= NPoints track < 2 ^ 32.
Proof.
  pose proof (NPoints_fits track) as H.
  apply andb_prop in H. destruct H as [H0 H1].
  apply Z.leb_le in H0. apply Z.ltb_lt in H1. lia.
Qed.

(** In the loop [for(unsigned int p = 1; p < NPoints(); ++p)] neither
    [++p] nor [p-1] wraps around. *)
Lemma trajAngle_counter_never_wraps (track : Track TVector3) (p : Z) :
  In p (indices_up 1 (NPoints track)) ->
  wrap32 (p + 1) = p + 1 /\ wrap32 (p - 1) = p - 1.
Proof.
  intros Hp. apply in_indices_up in Hp. pose proof (track_bounds track).
  split; apply wrap32_small; lia.
Qed.

Lemma index_run_cons (lo : Z) (c : nat) :
  map (fun k => lo + Z.of_nat k) (seq 0 (S c))
  = lo :: map (fun k => (lo + 1) + Z.of_nat k) (seq 0 c).
Proof.
  cbn [seq map]. f_equal; [lia |].
  rewrite <- seq_shift, map_map. apply map_ext. intros k. lia.
Qed.

Lemma angles_after_indices (D : Z -> TVector3) (c : nat) :
  forall lo,
    angles_after Angle (D (lo - 1))
      (map D (map (fun k => lo + Z.of_nat k) (seq 0 c)))
    = map (fun p => Angle (D p) (D (p - 1)))
          (map (fun k => lo + Z.of_nat k) (seq 0 c)).
Proof.
  induction c as [| c IH]; intros lo; [reflexivity |].
  rewrite index_run_cons. cbn [map angles_after]. f_equal.
  specialize (IH (lo + 1)).
  replace (lo + 1 - 1) with lo in IH by lia. exact IH.
Qed.

(** The loop over the indices collects the angles between consecutive
    directions, in the order of the trajectory. *)
Lemma trajAngle_consecutive (track : Track TVector3) :
  trajAngle Angle track = consecutive_angles Angle (directions track).
Proof.
  pose proof (track_bounds track) as Hb.
  unfold trajAngle, directions.
  destruct (Z.lt_ge_cases 0 (NPoints track)) as [Hpos | Hzero].
  - transitivity (map (fun p => Angle (DirectionAtPoint track p)
                                      (DirectionAtPoint track (p - 1)))
                      (indices_up 1 (NPoints track))).
    { apply map_ext_in. intros p Hp.
      destruct (trajAngle_counter_never_wraps track p Hp) as [_ ->].
      reflexivity. }
    unfold indices_up.
    replace (Z.to_nat (NPoints track - 0))
      with (S (Z.to_nat (NPoints track - 1))) by lia.
    rewrite index_run_cons. cbn [map consecutive_angles].
    replace (0 + 1) with 1 by lia.
    rewrite <- (angles_after_indices (DirectionAtPoint track)).
    reflexivity.
  - unfold indices_up.
    replace (Z.to_nat (NPoints track - 1)) with 0%nat by lia.
    replace (Z.to_nat (NPoints track - 0)) with 0%nat by lia.
    reflexivity.
Qed.

(** X5.  For a trajectory of fewer than 2^32 points,
    [GetDeflectionMeanAndSigma] returns the mean and the population
    standard deviation (in single precision, summing from the first one
    on) of the angles between each direction and the one before it, taken
    in the order of the trajectory; there are [NPoints - 1] of them for
    [NPoints] directions, and none below two points. *)
Theorem X5_deflection_statistics_are_those_of_the_angles (track : Track TVector3) :
  0 <= NPoints track < 2 ^ 32 ->
  let angles := consecutive_angles Angle (directions track) in
  length (directions track) = Z.to_nat (NPoints track) /\
  length angles = (Z.to_nat (NPoints track) - 1)%nat /\
  GetDeflectionMeanAndSigma Angle track
  = (StatSpec.mean angles, StatSpec.stddev angles).
Proof.
  intros Hb angles. subst angles.
  rewrite <- trajAngle_consecutive.
  split; [| split].
  - unfold directions, indices_up. rewrite !length_map, length_seq.
    f_equal. lia.
  - rewrite trajAngle_length. lia.
  - change (GetDeflectionMeanAndSigma Angle track)
      with (GetDedxMeanAndSigma (trajAngle Angle track)).
    apply GetDedxMeanAndSigma_spec.
Qed.

(** X6.  A trajectory with fewer than two points has no angle: the mean
    and the sigma are both NaN (0/0). *)
Theorem X6_deflection_of_a_single_point_is_nan (track : Track TVector3) :
  NPoints track <= 1 ->
  GetDeflectionMeanAndSigma Angle track = (S754_nan, S754_nan).
Proof.
  intros H.
  assert (E : trajAngle Angle track = []).
  { apply length_zero_iff_nil. rewrite trajAngle_length. lia. }
  unfold GetDeflectionMeanAndSigma. cbv zeta. rewrite E. reflexivity.
Qed.

(** X7.  A straight trajectory of at least two points, every angle
    between consecutive directions being zero: the mean and the sigma are
    both zero. *)
Theorem X7_deflection_of_a_straight_track_is_zero (track : Track TVector3) :
  2 <= NPoints track < 2 ^ 32 ->
  (forall p, 1 <= p < NPoints track ->
     Angle (DirectionAtPoint track p) (DirectionAtPoint track (p - 1)) = F32.zero) ->
  GetDeflectionMeanAndSigma Angle track = (F32.zero, F32.zero).
Proof.
  intros Hn Hstraight.
  assert (E : trajAngle Angle track = repeat F32.zero (Z.to_nat (NPoints track - 1))).
  { rewrite <- trajAngle_length.
    apply Forall_eq_repeat. unfold trajAngle. apply Forall_forall.
    intros a Ha. apply in_map_iff in Ha. destruct Ha as (p & Hp & Hin).
    apply in_indices_up in Hin.
    rewrite wrap32_small in Hp by lia. rewrite Hstraight in Hp by lia.
    exact Hp. }
  change (GetDeflectionMeanAndSigma Angle track)
    with (GetDedxMeanAndSigma (trajAngle Angle track)).
  rewrite E. apply GetDedxMeanAndSigma_zeros. lia.
Qed.

(** X8.  Neither sigma is ever below zero: the comparison [sigma < 0] is
    false for every input (the sigma is at least zero or NaN). *)
Theorem X8_sigma_is_never_negative (dedx : list float) (track : Track TVector3) :
  F32.ltb (snd (GetDedxMeanAndSigma dedx)) F32.zero = false /\
  F32.ltb (snd (GetDeflectionMeanAndSigma Angle track)) F32.zero = false.
Proof. split; apply sqrt_not_negative. Qed.

End Deflection.

(** X9.  The statistics of an empty sequence are NaN (0/0), and those
    of a sequence of zeros are zero. *)
Theorem X9_statistics_of_empty_and_zero_sequences (n : nat) :
  GetDedxMeanAndSigma [] = (S754_nan, S754_nan) /\
  ((0 < n)%nat -> GetDedxMeanAndSigma (repeat F32.zero n) = (F32.zero, F32.zero)).
Proof. split; [reflexivity | apply GetDedxMeanAndSigma_zeros]. Qed.

(* ================================================================== *)
(** ** GetChildParticles: what the three counters hold *)

(** X10.  [nTrack] is the number of children when the particle itself is
    track-like and 0 otherwise, [nShower] likewise with shower-like, and
    [nGrand] is the sum of the children's child counts, each modulo 2^32;
    whether a child is track-like or shower-like has no influence, and a
    particle without children gives (0, 0, 0). *)
Theorem X10_child_counts_follow_the_parent {TVector3 : Type}
    (part : PFParticle TVector3) :
  let n := Z.of_nat (length (GetChildren part)) in
  GetChildParticles part
  = (wrap32 (if IsTrack part then n else 0),
     wrap32 (if IsShower part then n else 0),
     wrap32 (fold_right Z.add 0 (map NumDaughters (GetChildren part)))) /\
  (GetChildren part = [] -> GetChildParticles part = (0, 0, 0)).
Proof.
  cbv zeta. split.
  - rewrite GetChildParticles_counts.
    destruct (IsTrack part), (IsShower part); cbn [Z.b2z];
      rewrite ?Z.mul_1_l, ?Z.mul_0_l; reflexivity.
  - intros E. unfold GetChildParticles. rewrite E. reflexivity.
Qed.

(* ================================================================== *)
(** ** PadDedxVector: the vector it returns *)

Section PaddingResult.

Variable cfg : Config.
Variable originalSize : Z.



End PaddingResult.

Section PaddingExtras.

Variable gaussDist : float -> float -> list float.




End PaddingExtras.

(* ================================================================== *)
(** ** The window loop at its bounds *)

Lemma indices_down_empty (hi lo : Z) : hi <= lo -> indices_down hi lo = [].
Proof.
  intros H. unfold indices_down.
  replace (Z.to_nat (hi - lo)) with 0%nat by lia. reflexivity.
Qed.

Lemma indices_down_head (hi lo : Z) :
  lo < hi -> exists rest, indices_down hi lo = hi :: rest.
Proof.
  intros H. unfold indices_down.
  destruct (Z.to_nat (hi - lo)) as [| c] eqn:E; [lia |].
  cbn [seq map]. eexists. f_equal. lia.
Qed.

(** Fewer samples than [pointsForAverage + 1]: [avStart] wraps around
    and the first [at] throws. *)
Lemma dedxWindow_throws (cfg : Config) (dedxVector : list float) :
  0 < pointsForAverage cfg ->
  size dedxVector <= pointsForAverage cfg ->
  dedxWindow cfg dedxVector = Throw out_of_range.
Proof.
  intros Hp0 Hn. pose proof (pointsForAverage_bounds cfg) as [_ Hp1].
  assert (Hs : 0 <= size dedxVector) by (unfold size; lia).
  unfold dedxWindow, windowIndices, avStart, avEnd.
  rewrite (wrap32_small (2 * pointsForAverage cfg)) by lia.
  assert (E1 : wrap32 (size dedxVector - 1 - pointsForAverage cfg)
               = 2 ^ 32 + (size dedxVector - 1 - pointsForAverage cfg)).
  { unfold wrap32. symmetry. apply Z.mod_unique with (q := -1); lia. }
  assert (E2 : wrap32 (size dedxVector - 1 - 2 * pointsForAverage cfg)
               = 2 ^ 32 + (size dedxVector - 1 - 2 * pointsForAverage cfg)).
  { unfold wrap32. symmetry. apply Z.mod_unique with (q := -1); lia. }
  rewrite E1, E2.
  destruct (indices_down_head
              (2 ^ 32 + (size dedxVector - 1 - pointsForAverage cfg))
              (2 ^ 32 + (size dedxVector - 1 - 2 * pointsForAverage cfg)))
    as [rest ->]; [lia |].
  cbn [ofold]. unfold window_body at 1, at_, in_range.
  destruct (2 ^ 32 + (size dedxVector - 1 - pointsForAverage cfg) <? size dedxVector)
    eqn:E; [apply Z.ltb_lt in E; lia |].
  rewrite andb_false_r. reflexivity.
Qed.

(** More samples than [pointsForAverage]: every index read is inside the
    vector, and the loop returns. *)
Lemma dedxWindow_returns (cfg : Config) (dedxVector : list float) :
  pointsForAverage cfg < size dedxVector < 2 ^ 32 ->
  exists dedxTrunc, dedxWindow cfg dedxVector = Ret dedxTrunc.
Proof.
  intros Hn. pose proof (pointsForAverage_bounds cfg) as [Hp0 Hp1].
  destruct (Z.lt_ge_cases (2 * pointsForAverage cfg) (size dedxVector))
    as [Hlt | Hge].
  - eexists. apply dedxWindow_no_wrap; lia.
  - exists []. unfold dedxWindow, windowIndices, avStart, avEnd.
    rewrite (wrap32_small (2 * pointsForAverage cfg)) by lia.
    rewrite (wrap32_small (size dedxVector - 1 - pointsForAverage cfg)) by lia.
    assert (E2 : wrap32 (size dedxVector - 1 - 2 * pointsForAverage cfg)
                 = 2 ^ 32 + (size dedxVector - 1 - 2 * pointsForAverage cfg)).
    { unfold wrap32. symmetry. apply Z.mod_unique with (q := -1); lia. }
    rewrite E2, indices_down_empty by lia. reflexivity.
Qed.

(* ================================================================== *)
(** ** GetNetworkInputs and its callers: outcomes *)

Section AssemblerExtras.

Context {TVector3 : Type}.
Variable Angle : TVector3 -> TVector3 -> float.
Variable gaussDist : float -> float -> list float.

(** X14.  A track-like particle with at least [fDedxLength] samples
    (at least 3, fewer than 2^32), under a configuration with
    [fMinTrackPoints <= fDedxLength]: [GetNetworkInputs] returns, after
    exactly four calls.  The sample vector is the last [fDedxLength]
    elements of the cleaned sequence; the window statistics are those of
    its elements [[n-2p, n-p)], read backwards. *)
Theorem X14_network_inputs_of_a_long_track (cfg : Config)
    (part : PFParticle TVector3) :
  config_wf cfg -> fMinTrackPoints cfg <= fDedxLength cfg ->
  IsTrack part = true ->
  3 <= size (dEdx part) < 2 ^ 32 -> fDedxLength cfg <= size (dEdx part) ->
  let n := size (dEdx part) in
  let p := pointsForAverage cfg in
  exists cleaned,
    SmoothDedxVector cfg (dEdx part) = Ret cleaned /\
    size cleaned = n /\
    GetNetworkInputs Angle gaussDist cfg part
    = ([CallSmoothDedxVector; CallGetDedxMeanAndSigma;
        CallGetChildParticles; CallGetDeflectionMeanAndSigma],
       Ret [skipn (Z.to_nat (n - fDedxLength cfg)) cleaned;
            [F32.of_Z (fst (fst (GetChildParticles part)));
             F32.of_Z (snd (fst (GetChildParticles part)));
             F32.of_Z (snd (GetChildParticles part));
             fst (GetDedxMeanAndSigma (rev (slice cleaned (n - 2 * p) (n - p))));
             snd (GetDedxMeanAndSigma (rev (slice cleaned (n - 2 * p) (n - p))));
             fst (GetDeflectionMeanAndSigma Angle (GetTrack part));
             snd (GetDeflectionMeanAndSigma Angle (GetTrack part))]]).
Proof.
  intros [Hm HTr] Hmt Ht Hn HT n p. subst n p.
  destruct (SmoothDedxVector_defined cfg (dEdx part) Hn) as (cleaned & Hs & Hsz).
  exists cleaned. split; [exact Hs |]. split; [exact Hsz |].
  rewrite (GetNetworkInputs_valid Angle gaussDist) by (assumption || lia).
  rewrite Hs.
  assert (Hp : 2 * pointsForAverage cfg < size cleaned).
  { rewrite pointsForAverage_no_wrap by (unfold config_wf; tauto || assumption).
    pose proof (Z.mul_div_le (fDedxLength cfg - fMinTrackPoints cfg) 3 ltac:(lia)).
    lia. }
  rewrite dedxWindow_no_wrap by lia.
  unfold last_elements.
  destruct (fDedxLength cfg <=? size cleaned) eqn:E;
    [| apply Z.leb_gt in E; lia].
  rewrite Hsz. reflexivity.
Qed.

(** X15.  The shape of every result: empty, or exactly two vectors, the
    first of [fDedxLength] elements and the second of seven; a result that
    is not empty is returned only for a particle with at least
    [fDedxLength] samples. *)
Theorem X15_result_is_empty_or_two_vectors (cfg : Config)
    (part : PFParticle TVector3) (r : list (list float)) :
  0 <= fDedxLength cfg ->
  snd (GetNetworkInputs Angle gaussDist cfg part) = Ret r ->
  r = [] \/
  exists finalInputDedx finalInputVariables,
    r = [finalInputDedx; finalInputVariables] /\
    size finalInputDedx = fDedxLength cfg /\
    length finalInputVariables = 7%nat /\
    fDedxLength cfg <= size (dEdx part).
Proof.
  intros HT Hr. destruct r as [| d rest]; [left; reflexivity | right].
  destruct (GetNetworkInputs_success Angle gaussDist _ _ _ Hr ltac:(discriminate))
    as (cleaned & dedxTrunc & fin & _ & _ & Hs & _ & Hl & E).
  injection E as -> ->.
  apply last_elements_size in Hl; [| exact HT].
  apply SmoothDedxVector_size in Hs.
  eexists _, _. split; [reflexivity |].
  split; [tauto |]. split; [reflexivity | lia].
Qed.

(** X16.  A track-like particle whose number of samples is at least
    [fMinTrackPoints] (and 3) but below [fDedxLength]: nothing is padded
    and no result is returned.  With more samples than
    [pointsForAverage] the statistics are computed and the behaviour is
    then undefined; with at most [pointsForAverage] samples the window
    loop throws [std::out_of_range] first. *)
Theorem X16_no_result_below_target_length (cfg : Config)
    (part : PFParticle TVector3) :
  IsTrack part = true ->
  3 <= size (dEdx part) < 2 ^ 32 ->
  fMinTrackPoints cfg <= size (dEdx part) < fDedxLength cfg ->
  GetNetworkInputs Angle gaussDist cfg part
  = if size (dEdx part) <=? pointsForAverage cfg
    then ([CallSmoothDedxVector], Throw out_of_range)
    else ([CallSmoothDedxVector; CallGetDedxMeanAndSigma], Undefined).
Proof.
  intros Ht Hn Hm.
  destruct (SmoothDedxVector_defined cfg (dEdx part) Hn) as (cleaned & Hs & Hsz).
  rewrite (GetNetworkInputs_valid Angle gaussDist) by (assumption || lia).
  rewrite Hs, <- Hsz.
  destruct (size cleaned <=? pointsForAverage cfg) eqn:E.
  - apply Z.leb_le in E. rewrite dedxWindow_throws by lia. reflexivity.
  - apply Z.leb_gt in E.
    destruct (dedxWindow_returns cfg cleaned ltac:(lia)) as [dedxTrunc ->].
    rewrite last_elements_short by lia. reflexivity.
Qed.

(** X17.  The ceiling [fQMax] has no effect on the network inputs: two
    configurations that differ in nothing else give the same outcome for
    every particle. *)
Theorem X17_network_inputs_ignore_fQMax (cfg : Config) (qMax : float)
    (part : PFParticle TVector3) :
  GetNetworkInputs Angle gaussDist
    (mkConfig (fMinTrackPoints cfg) (fDedxLength cfg) qMax (fQJump cfg)) part
  = GetNetworkInputs Angle gaussDist cfg part.
Proof.
  set (cfg' := mkConfig (fMinTrackPoints cfg) (fDedxLength cfg) qMax (fQJump cfg)).
  destruct (IsTrack part) eqn:Ht.
  2:{ rewrite !GetNetworkInputs_not_track by exact Ht. reflexivity. }
  destruct (Z.lt_ge_cases (size (dEdx part)) (fMinTrackPoints cfg)) as [Hlt | Hge].
  { rewrite !GetNetworkInputs_too_few by exact Hlt. reflexivity. }
  rewrite !GetNetworkInputs_valid by assumption.
  assert (Es : SmoothDedxVector cfg' (dEdx part) = SmoothDedxVector cfg (dEdx part)).
  { unfold SmoothDedxVector. rewrite !clamp_pass_unchanged. reflexivity. }
  rewrite Es. reflexivity.
Qed.

(** X18.  [GetDeDxVector] and [GetVariableVector] on a particle that is
    rejected (not track-like, or with fewer than [fMinTrackPoints]
    samples): [at] is applied to the empty result and throws
    [std::out_of_range]. *)
Theorem X18_accessors_throw_on_rejected_particles (cfg : Config)
    (part : PFParticle TVector3) :
  IsTrack part = false \/ size (dEdx part) < fMinTrackPoints cfg ->
  GetDeDxVector Angle gaussDist cfg part = Throw out_of_range /\
  GetVariableVector Angle gaussDist cfg part = Throw out_of_range.
Proof.
  intros H.
  assert (E : GetNetworkInputs Angle gaussDist cfg part = ([], Ret [])).
  { destruct H as [H | H].
    - apply GetNetworkInputs_not_track. exact H.
    - apply GetNetworkInputs_too_few. exact H. }
  unfold GetDeDxVector, GetVariableVector. rewrite E. split; reflexivity.
Qed.

(** X19.  When [GetDeDxVector] returns, the vector has [fDedxLength]
    elements; when [GetVariableVector] returns, the vector has seven; and
    each returns exactly when [GetNetworkInputs] returns a result that is
    not empty. *)
Theorem X19_accessors_return_the_two_parts (cfg : Config)
    (part : PFParticle TVector3) :
  0 <= fDedxLength cfg ->
  (forall d, GetDeDxVector Angle gaussDist cfg part = Ret d ->
     size d = fDedxLength cfg /\
     exists v, snd (GetNetworkInputs Angle gaussDist cfg part) = Ret [d; v]) /\
  (forall v, GetVariableVector Angle gaussDist cfg part = Ret v ->
     length v = 7%nat /\
     exists d, snd (GetNetworkInputs Angle gaussDist cfg part) = Ret [d; v]).
Proof.
  intros HT. unfold GetDeDxVector, GetVariableVector.
  destruct (snd (GetNetworkInputs Angle gaussDist cfg part)) as [r | | |] eqn:Hr;
    try (split; intros ? Hx; discriminate).
  destruct r as [| d0 rest]; [split; intros ? Hx; discriminate |].
  destruct (GetNetworkInputs_success Angle gaussDist _ _ _ Hr ltac:(discriminate))
    as (cleaned & dedxTrunc & fin & _ & _ & Hs & _ & Hl & E).
  injection E as -> ->.
  apply last_elements_size in Hl; [| exact HT].
  split.
  - intros d Hd. injection Hd as <-. split; [tauto | eauto].
  - intros v Hv. injection Hv as <-. split; [reflexivity | eauto].
Qed.

(** X20.  [RunConvolutionalTrackPID] does not look at what
    [GetNetworkInputs] returned: for a rejected particle the network is run
    on one empty entry, and the scores are the first element of the first
    element of its output, or [std::out_of_range] when there is none.
    When [GetNetworkInputs] does not return, neither does the caller. *)
Theorem X20_network_runs_on_the_empty_result
    (convNet : list (list (list float)) -> list (list (list float)))
    (cfg : Config) (part : PFParticle TVector3) :
  (IsTrack part = false \/ size (dEdx part) < fMinTrackPoints cfg ->
   RunConvolutionalTrackPID Angle gaussDist convNet cfg part
   = match convNet [[]] with
     | (scores :: _) :: _ => Ret scores
     | _ => Throw out_of_range
     end) /\
  (forall scores,
     RunConvolutionalTrackPID Angle gaussDist convNet cfg part = Ret scores ->
     exists twoVecs,
       snd (GetNetworkInputs Angle gaussDist cfg part) = Ret twoVecs /\
       exists rest rest', convNet [twoVecs] = (scores :: rest) :: rest').
Proof.
  split.
  - intros H.
    assert (E : GetNetworkInputs Angle gaussDist cfg part = ([], Ret [])).
    { destruct H as [H | H].
      - apply GetNetworkInputs_not_track. exact H.
      - apply GetNetworkInputs_too_few. exact H. }
    unfold RunConvolutionalTrackPID. rewrite E. cbn [snd].
    destruct (convNet [[]]) as [| [| scores rest] rest']; reflexivity.
  - intros scores H. unfold RunConvolutionalTrackPID in H.
    destruct (snd (GetNetworkInputs Angle gaussDist cfg part)) as [twoVecs | | |];
      try discriminate.
    exists twoVecs. split; [reflexivity |].
    destruct (convNet [twoVecs]) as [| [| s rest] rest']; try discriminate.
    cbn in H. injection H as ->. eauto.
Qed.

End AssemblerExtras.

(* ================================================================== *)
(** ** SmoothDedxVector: one jump inside the sequence *)

Lemma set_replace_at (v : list float) (q : Z) (x : float) :
  0 <= q < size v -> set v q x = Ret (replace_at v q x).
Proof. intros H. unfold set. rewrite (in_range_true _ _ H). reflexivity. Qed.

Lemma size_replace_at (v : list float) (q : Z) (x : float) :
  0 <= q < size v -> size (replace_at v q x) = size v.
Proof. intros H. apply (set_size v _ q x). apply set_replace_at. exact H. Qed.

Lemma elt_replace_at (v : list float) (q i : Z) (x : float) :
  0 <= q < size v -> 0 <= i ->
  elt (replace_at v q x) i = if i =? q then x else elt v i.
Proof.
  intros Hq Hi. unfold elt, replace_at, size in *.
  assert (Hlen : length (firstn (Z.to_nat q) v) = Z.to_nat q)
    by (apply firstn_length_le; lia).
  destruct (i =? q) eqn:E.
  - apply Z.eqb_eq in E. subst i.
    rewrite app_nth2 by lia. rewrite Hlen, Nat.sub_diag. reflexivity.
  - apply Z.eqb_neq in E.
    destruct (Z.lt_ge_cases i q) as [Hlt | Hge].
    + rewrite app_nth1 by lia. rewrite nth_firstn.
      destruct (Z.to_nat i <? Z.to_nat q)%nat eqn:E'; [reflexivity |].
      apply Nat.ltb_ge in E'. lia.
    + rewrite app_nth2 by lia. rewrite Hlen.
      replace (Z.to_nat i - Z.to_nat q)%nat
        with (S (Z.to_nat i - Z.to_nat (q + 1)))%nat by lia.
      cbn [nth]. rewrite nth_skipn. f_equal. lia.
Qed.

Lemma ofold_app {A S : Type} (body : S -> A -> outcome S) (l1 l2 : list A) (s : S) :
  ofold body (l1 ++ l2) s = obind (ofold body l1 s) (ofold body l2).
Proof.
  revert s. induction l1 as [| a l1 IH]; intros s; cbn [app ofold obind];
    [reflexivity |].
  destruct (body s a) as [s1 | | |]; cbn [obind]; [apply IH | | |]; reflexivity.
Qed.

Lemma map_seq_from {B : Type} (f : nat -> B) (len start : nat) :
  map f (seq start len) = map (fun k => f (start + k)%nat) (seq 0 len).
Proof.
  revert start. induction len as [| len IH]; intros start; [reflexivity |].
  cbn [seq map]. rewrite Nat.add_0_r. f_equal.
  rewrite IH, <- (seq_shift len 0), map_map.
  apply map_ext. intros k. f_equal. lia.
Qed.

Lemma indices_up_split (lo mid hi : Z) :
  lo <= mid < hi ->
  indices_up lo hi = indices_up lo mid ++ mid :: indices_up (mid + 1) hi.
Proof.
  intros H. unfold indices_up.
  replace (Z.to_nat (hi - lo))
    with (Z.to_nat (mid - lo) + S (Z.to_nat (hi - (mid + 1))))%nat by lia.
  rewrite seq_app, map_app. f_equal.
  rewrite map_seq_from. cbn [seq map]. f_equal; [lia |].
  rewrite <- (seq_shift _ 0), map_map.
  apply map_ext. intros k. lia.
Qed.

(** X21.  One rising jump at an interior index [q], nothing else for the
    jump rules to act on: the function returns the sequence with the
    element at [q] replaced by half the sum of its two neighbours, all
    other elements as they were.  The element after [q] is compared with
    the new value at [q], not with the old one. *)
Theorem X21_interior_jump_becomes_the_neighbour_average
    (cfg : Config) (dedx : list float) (q : Z) :
  3 <= size dedx < 2 ^ 32 ->
  1 <= q < size dedx - 1 ->
  F32.gtb (F32.sub (elt dedx 0) (elt dedx 1)) (fQJump cfg) = false ->
  F32.gtb (F32.sub (elt dedx (size dedx - 1)) (elt dedx (size dedx - 2)))
          (fQJump cfg) = false ->
  (forall i, 1 <= i < size dedx - 1 -> i <> q -> i <> q + 1 ->
     F32.gtb (F32.sub (elt dedx i) (elt dedx (i - 1))) (fQJump cfg) = false) ->
  F32.gtb (F32.sub (elt dedx q) (elt dedx (q - 1))) (fQJump cfg) = true ->
  let average := F32.mul F32.half (F32.add (elt dedx (q - 1)) (elt dedx (q + 1))) in
  (q + 1 < size dedx - 1 ->
     F32.gtb (F32.sub (elt dedx (q + 1)) average) (fQJump cfg) = false) ->
  SmoothDedxVector cfg dedx = Ret (replace_at dedx q average).
Proof.
  intros Hn Hq Hfirst Hlast Hrest Hjump average Hnext.
  unfold SmoothDedxVector. rewrite clamp_pass_unchanged. cbv zeta.
  rewrite smooth_first_no_jump by (lia || assumption). cbn [obind].
  rewrite smooth_last_no_jump by (lia || assumption). cbn [obind].
  rewrite (wrap32_small (size dedx)), (wrap32_small (size dedx - 1)) by lia.
  rewrite (indices_up_split 1 q (size dedx - 1)) by lia.
  rewrite ofold_app.
  rewrite ofold_fixed.
  2:{ intros i Hi. apply in_indices_up in Hi.
      apply smooth_body_no_jump; [lia | lia |]. apply Hrest; lia. }
  cbn [obind ofold].
  assert (Hq_body : smooth_body cfg dedx q = Ret (replace_at dedx q average)).
  { unfold smooth_body.
    rewrite (wrap32_small (q - 1)), (wrap32_small (q + 1)) by lia.
    rewrite !get_in_range by lia. cbn [obind]. rewrite Hjump.
    apply set_replace_at. lia. }
  rewrite Hq_body. cbn [obind].
  apply ofold_fixed. intros i Hi. apply in_indices_up in Hi.
  apply smooth_body_no_jump.
  - rewrite size_replace_at by lia. lia.
  - rewrite size_replace_at by lia. lia.
  - rewrite !elt_replace_at by lia.
    destruct (i =? q) eqn:E1; [apply Z.eqb_eq in E1; lia |].
    destruct (i - 1 =? q) eqn:E2.
    + apply Z.eqb_eq in E2. replace i with (q + 1) by lia.
      apply Hnext. lia.
    + apply Z.eqb_neq in E2. apply Hrest; lia.
Qed.

(* ================================================================== *)
(** ** SmoothDedxVector: a jump at either end *)

(** X22.  A jump at the first element and nothing else for the rules to
    act on: the function returns the sequence with its first element
    replaced by the extrapolation [dedx[1] + (dedx[1] - dedx[2])].  The
    second element is then compared with that new value. *)
Theorem X22_jump_at_the_first_element (cfg : Config) (dedx : list float) :
  3 <= size dedx < 2 ^ 32 ->
  F32.gtb (F32.sub (elt dedx 0) (elt dedx 1)) (fQJump cfg) = true ->
  F32.gtb (F32.sub (elt dedx (size dedx - 1)) (elt dedx (size dedx - 2)))
          (fQJump cfg) = false ->
  let extrapolated := F32.add (elt dedx 1) (F32.sub (elt dedx 1) (elt dedx 2)) in
  F32.gtb (F32.sub (elt dedx 1) extrapolated) (fQJump cfg) = false ->
  (forall i, 2 <= i < size dedx - 1 ->
     F32.gtb (F32.sub (elt dedx i) (elt dedx (i - 1))) (fQJump cfg) = false) ->
  SmoothDedxVector cfg dedx = Ret (replace_at dedx 0 extrapolated).
Proof.
  intros Hn Hfirst Hlast extrapolated Hsecond Hrest.
  unfold SmoothDedxVector. rewrite clamp_pass_unchanged. cbv zeta.
  unfold smooth_first at 1.
  rewrite !get_in_range by lia. cbn [obind]. rewrite Hfirst. cbn [obind].
  rewrite set_replace_at by lia. cbn [obind].
  fold extrapolated.
  pose proof (size_replace_at dedx 0 extrapolated ltac:(lia)) as Hsz.
  rewrite <- Hsz.
  rewrite smooth_last_no_jump.
  - cbn [obind]. apply ofold_fixed. intros i Hi. apply in_indices_up in Hi.
    rewrite (wrap32_small (size (replace_at dedx 0 extrapolated))) in Hi by lia.
    rewrite (wrap32_small (size (replace_at dedx 0 extrapolated) - 1)) in Hi by lia.
    apply smooth_body_no_jump; [lia | lia |].
    rewrite !elt_replace_at by lia.
    destruct (i =? 0) eqn:E1; [apply Z.eqb_eq in E1; lia |].
    destruct (i - 1 =? 0) eqn:E2.
    + apply Z.eqb_eq in E2. replace i with 1 by lia. exact Hsecond.
    + apply Z.eqb_neq in E2. apply Hrest. lia.
  - lia.
  - rewrite Hsz, !elt_replace_at by lia.
    destruct (size dedx - 1 =? 0) eqn:E1; [apply Z.eqb_eq in E1; lia |].
    destruct (size dedx - 2 =? 0) eqn:E2; [apply Z.eqb_eq in E2; lia |].
    exact Hlast.
Qed.

(** X23.  A jump at the last element and nothing else for the rules to
    act on: the function returns the sequence with its last element
    replaced by the extrapolation
    [dedx[nQ-2] + (dedx[nQ-2] - dedx[nQ-3])]. *)
Theorem X23_jump_at_the_last_element (cfg : Config) (dedx : list float) :
  3 <= size dedx < 2 ^ 32 ->
  let n := size dedx in
  F32.gtb (F32.sub (elt dedx 0) (elt dedx 1)) (fQJump cfg) = false ->
  F32.gtb (F32.sub (elt dedx (n - 1)) (elt dedx (n - 2))) (fQJump cfg) = true ->
  (forall i, 1 <= i < n - 1 ->
     F32.gtb (F32.sub (elt dedx i) (elt dedx (i - 1))) (fQJump cfg) = false) ->
  SmoothDedxVector cfg dedx
  = Ret (replace_at dedx (n - 1)
           (F32.add (elt dedx (n - 2))
                    (F32.sub (elt dedx (n - 2)) (elt dedx (n - 3))))).
Proof.
  intros Hn n Hfirst Hlast Hrest. subst n.
  unfold SmoothDedxVector. rewrite clamp_pass_unchanged. cbv zeta.
  rewrite smooth_first_no_jump by (lia || assumption). cbn [obind].
  unfold smooth_last.
  rewrite (wrap32_small (size dedx)) by lia.
  rewrite (wrap32_small (size dedx - 1)), (wrap32_small (size dedx - 2)),
    (wrap32_small (size dedx - 3)) by lia.
  rewrite !get_in_range by lia. cbn [obind]. rewrite Hlast. cbn [obind].
  rewrite set_replace_at by lia. cbn [obind].
  set (extrapolated := F32.add _ _).
  pose proof (size_replace_at dedx (size dedx - 1) extrapolated ltac:(lia)) as Hsz.
  apply ofold_fixed. intros i Hi. apply in_indices_up in Hi.
  apply smooth_body_no_jump; [lia | lia |].
  rewrite !elt_replace_at by lia.
  destruct (i =? size dedx - 1) eqn:E1; [apply Z.eqb_eq in E1; lia |].
  destruct (i - 1 =? size dedx - 1) eqn:E2; [apply Z.eqb_eq in E2; lia |].
  apply Hrest. lia.
Qed.

(* ================================================================== *)
(** ** The sample vector of a track without jumps *)

Lemma SmoothDedxVector_no_jumps (cfg : Config) (dedx : list float) :
  3 <= size dedx < 2 ^ 32 -> no_jumps cfg dedx ->
  SmoothDedxVector cfg dedx = Ret dedx.
Proof.
  intros Hn (Hfirst & Hlast & Hrest).
  unfold SmoothDedxVector. rewrite clamp_pass_unchanged. cbv zeta.
  rewrite smooth_first_no_jump by (lia || assumption). cbn [obind].
  rewrite smooth_last_no_jump by (lia || assumption). cbn [obind].
  apply ofold_fixed. intros q Hq. apply in_indices_up in Hq.
  rewrite (wrap32_small (size dedx)) in Hq by lia.
  rewrite (wrap32_small (size dedx - 1)) in Hq by lia.
  apply smooth_body_no_jump; [lia | lia |]. apply Hrest. lia.
Qed.

(** X24.  For a track-like particle with at least [fDedxLength] samples
    in which no jump rule fires, [GetDeDxVector] returns the last
    [fDedxLength] samples exactly as the calorimetry gives them, values
    above [fQMax] and negative values included. *)
Theorem X24_sample_vector_is_the_raw_tail {TVector3 : Type}
    (Angle : TVector3 -> TVector3 -> float)
    (gaussDist : float -> float -> list float)
    (cfg : Config) (part : PFParticle TVector3) :
  config_wf cfg -> fMinTrackPoints cfg <= fDedxLength cfg ->
  IsTrack part = true ->
  3 <= size (dEdx part) < 2 ^ 32 -> fDedxLength cfg <= size (dEdx part) ->
  no_jumps cfg (dEdx part) ->
  GetDeDxVector Angle gaussDist cfg part
  = Ret (skipn (Z.to_nat (size (dEdx part) - fDedxLength cfg)) (dEdx part)).
Proof.
  intros [Hm HTr] Hmt Ht Hn HT Hnj.
  pose proof (SmoothDedxVector_no_jumps cfg (dEdx part) Hn Hnj) as Hs.
  unfold GetDeDxVector.
  rewrite (GetNetworkInputs_valid Angle gaussDist) by (assumption || lia).
  rewrite Hs.
  assert (Hp : 2 * pointsForAverage cfg < size (dEdx part)).
  { rewrite pointsForAverage_no_wrap by (unfold config_wf; tauto || assumption).
    pose proof (Z.mul_div_le (fDedxLength cfg - fMinTrackPoints cfg) 3 ltac:(lia)).
    lia. }
  rewrite dedxWindow_no_wrap by lia.
  unfold last_elements.
  destruct (fDedxLength cfg <=? size (dEdx part)) eqn:E;
    [| apply Z.leb_gt in E; lia].
  reflexivity.
Qed.

(* ================================================================== *)
(** ** C10: the scalar feature vector against the specification *)

(** In every result the last five slots are those of the specification's
    feature vector (the grandchild count modulo 2^32); the first two hold
    the number of children under the classification of the parent. *)
Lemma GetNetworkInputs_features_against_spec {TVector3 : Type}
    (Angle : TVector3 -> TVector3 -> float)
    (gaussDist : float -> float -> list float)
    (cfg : Config) (part : PFParticle TVector3)
    (finalInputDedx finalInputVariables : list float) :
  config_wf cfg -> fMinTrackPoints cfg <= fDedxLength cfg ->
  size (dEdx part) < 2 ^ 32 ->
  fold_right Z.add 0 (map NumDaughters (GetChildren part)) < 2 ^ 32 ->
  snd (GetNetworkInputs Angle gaussDist cfg part)
  = Ret [finalInputDedx; finalInputVariables] ->
  exists cleaned,
    SmoothDedxVector cfg (dEdx part) = Ret cleaned /\
    let n := Z.of_nat (length (GetChildren part)) in
    firstn 2 finalInputVariables
    = [F32.of_Z (wrap32 (if IsTrack part then n else 0));
       F32.of_Z (wrap32 (if IsShower part then n else 0))] /\
    skipn 2 finalInputVariables
    = skipn 2 (features_spec Angle cfg part cleaned).
Proof.
  intros [Hm HT] Hmt Hn Hg Hr.
  destruct (GetNetworkInputs_success Angle gaussDist _ _ _ Hr ltac:(discriminate))
    as (cleaned & dedxTrunc & fin & _ & Hmin & Hs & Hw & Hl & E).
  pose proof (f_equal (fun r => nth 1 r []) E) as Ev. cbn [nth] in Ev.
  subst finalInputVariables. clear E.
  exists cleaned. split; [exact Hs |].
  pose proof (SmoothDedxVector_size _ _ _ Hs) as Hsz.
  apply last_elements_size in Hl; [| lia]. destruct Hl as (_ & Hlen & _).
  assert (Hp : 2 * pointsForAverage cfg < size cleaned).
  { rewrite pointsForAverage_no_wrap by (unfold config_wf; tauto || assumption).
    pose proof (Z.mul_div_le (fDedxLength cfg - fMinTrackPoints cfg) 3 ltac:(lia)).
    assert (0 <= size cleaned) by (unfold size; lia).
    destruct (Z.eq_dec (fDedxLength cfg) 0) as [E0 | E0].
    - assert (Hz : fDedxLength cfg - fMinTrackPoints cfg = 0) by lia.
      rewrite Hz. change (0 / 3) with 0.
      assert (Hpos : 0 < size cleaned); [| lia].
      rewrite Hsz. unfold SmoothDedxVector in Hs.
      rewrite clamp_pass_unchanged in Hs. cbv zeta in Hs.
      destruct (dEdx part) as [| x rest]; [discriminate Hs |].
      unfold size. cbn [length]. lia.
    - lia. }
  rewrite dedxWindow_no_wrap in Hw by lia.
  assert (Ew : dedxTrunc
               = rev (slice cleaned (size cleaned - 2 * pointsForAverage cfg)
                        (size cleaned - pointsForAverage cfg)))
    by congruence.
  clear Hw. cbv zeta. split.
  - cbn [firstn]. rewrite GetChildParticles_counts. cbn [fst snd].
    destruct (IsTrack part), (IsShower part); cbn [Z.b2z];
      rewrite ?Z.mul_1_l, ?Z.mul_0_l; reflexivity.
  - unfold features_spec, countChildren_spec. cbn [skipn].
    rewrite GetChildParticles_counts. cbn [fst snd].
    rewrite (GetDedxMeanAndSigma_spec dedxTrunc), Ew. cbn [fst snd].
    change (GetDeflectionMeanAndSigma Angle (GetTrack part))
      with (GetDedxMeanAndSigma (trajAngle Angle (GetTrack part))).
    rewrite GetDedxMeanAndSigma_spec, trajAngle_consecutive. cbn [fst snd].
    rewrite wrap32_small; [reflexivity |].
    split; [| exact Hg].
    clear. induction (GetChildren part) as [| c l IH]; cbn; [lia |].
    unfold NumDaughters at 1. lia.
Qed.

(** C10 (the code departs from the claim).  The claim: the seven slots
    hold, in this order, the number of track-like children, the number of
    shower-like children, the number of grandchildren, the mean and the
    standard deviation over the energy-loss window, and the mean and the
    standard deviation of the angular deflection.  For a track-like
    particle with one shower-like child (which has one child) and one
    track-like child, samples 0, ..., 99 and the directions 0, 1, 4, 9,
    the result has seven slots and the last five are as claimed: one
    grandchild, window mean 75.5 and sigma sqrt(21.25), deflection mean 3
    and sigma sqrt(8/3).  The first two are 2 and 0, the number of
    children under the parent's classification, where the claim asks for
    1 and 1. *)
Theorem C10_child_count_slots_follow_the_parent :
  let window_mean := F32.div (F32.of_Z 151) (F32.of_Z 2) in
  let window_sigma := F32.sqrt (F32.div (F32.of_Z 85) (F32.of_Z 4)) in
  let deflection_sigma := F32.sqrt (F32.div (F32.of_Z 8) (F32.of_Z 3)) in
  let returned :=
    [F32.of_Z 2; F32.of_Z 0; F32.of_Z 1;
     window_mean; window_sigma; F32.of_Z 3; deflection_sigma] in
  let claimed :=
    [F32.of_Z 1; F32.of_Z 1; F32.of_Z 1;
     window_mean; window_sigma; F32.of_Z 3; deflection_sigma] in
  SmoothDedxVector defaultConfig (dEdx family_particle) = Ret (ramp 100) /\
  snd (GetNetworkInputs distance_angle steady_draws defaultConfig family_particle)
  = Ret [ramp 100; returned] /\
  features_spec distance_angle defaultConfig family_particle (ramp 100) = claimed /\
  length returned = 7%nat /\
  skipn 2 returned = skipn 2 claimed /\
  firstn 2 returned <> firstn 2 claimed.
Proof.
  cbv zeta. repeat split; try (vm_compute; reflexivity).
  vm_compute. discriminate.
Qed.

(* ================================================================== *)
(** ** The further properties at concrete inputs *)

Ltac by_evaluation :=
  vm_compute; repeat split; (reflexivity || discriminate).

(** X1 at 2000, 10, 10, 2000, 10. *)
Lemma X1_smooth_returns_witness :
  exists dedx',
    SmoothDedxVector defaultConfig (map F32.of_Z [2000; 10; 10; 2000; 10])
    = Ret dedx' /\
    length dedx' = length (map F32.of_Z [2000; 10; 10; 2000; 10]).
Proof.
  apply (X1_smooth_returns_from_three_elements defaultConfig
           (map F32.of_Z [2000; 10; 10; 2000; 10])).
  by_evaluation.
Defined.

(** X2 at 2000, 10, 10, 2000, 10, which the conditioner turns into five
    times 10. *)
Lemma X2_smooth_keeps_the_length_witness :
  length (map F32.of_Z [10; 10; 10; 10; 10])
  = length (map F32.of_Z [2000; 10; 10; 2000; 10]).
Proof.
  apply (X2_smooth_keeps_the_length defaultConfig
           (map F32.of_Z [2000; 10; 10; 2000; 10])
           (map F32.of_Z [10; 10; 10; 10; 10])).
  by_evaluation.
Defined.

(** X4 at a ceiling of 5 instead of 1000. *)
Lemma X4_smooth_ignores_fQMax_witness :
  SmoothDedxVector defaultConfig (map F32.of_Z [2000; 2000; -5])
  = SmoothDedxVector (mkConfig 50 100 (F32.of_Z 5) (F32.of_Z 500))
      (map F32.of_Z [2000; 2000; -5]).
Proof.
  apply (X4_smooth_ignores_fQMax defaultConfig
           (mkConfig 50 100 (F32.of_Z 5) (F32.of_Z 500))).
  reflexivity.
Defined.

(** X6 at a trajectory of one point. *)
Lemma X6_single_point_witness :
  GetDeflectionMeanAndSigma no_angle (mkTrack 1 (fun _ => tt) eq_refl)
  = (S754_nan, S754_nan).
Proof.
  apply (X6_deflection_of_a_single_point_is_nan no_angle (mkTrack 1 (fun _ => tt) eq_refl)).
  by_evaluation.
Defined.

(** X7 at the three-point straight track. *)
Lemma X7_straight_track_witness :
  GetDeflectionMeanAndSigma no_angle straight_track = (F32.zero, F32.zero).
Proof.
  apply (X7_deflection_of_a_straight_track_is_zero no_angle straight_track).
  - by_evaluation.
  - intros p Hp. reflexivity.
Defined.




(** X14 at [example_particle]. *)
Lemma X14_long_track_witness :
  exists cleaned,
    SmoothDedxVector defaultConfig (dEdx example_particle) = Ret cleaned /\
    size cleaned = 100 /\
    GetNetworkInputs no_angle steady_draws defaultConfig example_particle
    = ([CallSmoothDedxVector; CallGetDedxMeanAndSigma;
        CallGetChildParticles; CallGetDeflectionMeanAndSigma],
       Ret [skipn (Z.to_nat (100 - 100)) cleaned;
            [F32.of_Z (fst (fst (GetChildParticles example_particle)));
             F32.of_Z (snd (fst (GetChildParticles example_particle)));
             F32.of_Z (snd (GetChildParticles example_particle));
             fst (GetDedxMeanAndSigma (rev (slice cleaned (100 - 2 * 16) (100 - 16))));
             snd (GetDedxMeanAndSigma (rev (slice cleaned (100 - 2 * 16) (100 - 16))));
             fst (GetDeflectionMeanAndSigma no_angle (GetTrack example_particle));
             snd (GetDeflectionMeanAndSigma no_angle (GetTrack example_particle))]]).
Proof.
  apply (X14_network_inputs_of_a_long_track no_angle steady_draws
           defaultConfig example_particle); by_evaluation.
Defined.

(** X15 at [example_particle]. *)
Lemma X15_result_shape_witness :
  let r := [repeat (F32.of_Z 10) 100;
            [F32.of_Z 2; F32.zero; F32.of_Z 1;
             F32.of_Z 10; F32.zero; F32.zero; F32.zero]] in
  r = [] \/
  exists finalInputDedx finalInputVariables,
    r = [finalInputDedx; finalInputVariables] /\
    size finalInputDedx = 100 /\
    length finalInputVariables = 7%nat /\
    100 <= size (dEdx example_particle).
Proof.
  apply (X15_result_is_empty_or_two_vectors no_angle steady_draws
           defaultConfig example_particle); by_evaluation.
Defined.

(** X16 at a track of 60 samples: more than the 16 points of the
    window, fewer than 100. *)
Lemma X16_no_result_witness :
  GetNetworkInputs no_angle steady_draws defaultConfig
    (track_particle (repeat (F32.of_Z 10) 60) [])
  = ([CallSmoothDedxVector; CallGetDedxMeanAndSigma], Undefined).
Proof.
  apply (X16_no_result_below_target_length no_angle steady_draws defaultConfig
           (track_particle (repeat (F32.of_Z 10) 60) [])); by_evaluation.
Defined.

(** A minimum of 3 and a track of 20 samples, no more than the 32 points
    of the window: the loop throws. *)
Lemma window_throws_example :
  GetNetworkInputs no_angle steady_draws
    (mkConfig 3 100 (F32.of_Z 1000) (F32.of_Z 500))
    (track_particle (repeat (F32.of_Z 10) 20) [])
  = ([CallSmoothDedxVector], Throw out_of_range).
Proof. vm_compute. reflexivity. Qed.

(** X18 at a shower. *)
Lemma X18_accessors_throw_witness :
  GetDeDxVector no_angle steady_draws defaultConfig (shower_particle [])
  = Throw out_of_range /\
  GetVariableVector no_angle steady_draws defaultConfig (shower_particle [])
  = Throw out_of_range.
Proof.
  apply (X18_accessors_throw_on_rejected_particles no_angle steady_draws
           defaultConfig (shower_particle [])).
  left. reflexivity.
Defined.

(** X19 at [example_particle]. *)
Lemma X19_accessors_witness :
  size (repeat (F32.of_Z 10) 100) = 100 /\
  length [F32.of_Z 2; F32.zero; F32.of_Z 1;
          F32.of_Z 10; F32.zero; F32.zero; F32.zero] = 7%nat.
Proof.
  destruct (X19_accessors_return_the_two_parts no_angle steady_draws
              defaultConfig example_particle) as [Hd Hv]; [by_evaluation |].
  split.
  - apply Hd. by_evaluation.
  - apply (Hv [F32.of_Z 2; F32.zero; F32.of_Z 1;
               F32.of_Z 10; F32.zero; F32.zero; F32.zero]). by_evaluation.
Defined.

(** X21 at 10, 10, 2000, 10, 10 with the jump at index 2. *)
Lemma X21_interior_jump_witness :
  SmoothDedxVector defaultConfig (map F32.of_Z [10; 10; 2000; 10; 10])
  = Ret (map F32.of_Z [10; 10; 10; 10; 10]).
Proof.
  apply (X21_interior_jump_becomes_the_neighbour_average defaultConfig
           (map F32.of_Z [10; 10; 2000; 10; 10]) 2); try by_evaluation.
  intros i Hi H2 H3.
  change (size (map F32.of_Z [10; 10; 2000; 10; 10])) with 5 in Hi.
  assert (i = 1) by lia. subst i. by_evaluation.
Defined.

(** X22 at 2000, 10, 10, 10. *)
Lemma X22_first_jump_witness :
  SmoothDedxVector defaultConfig (map F32.of_Z [2000; 10; 10; 10])
  = Ret (map F32.of_Z [10; 10; 10; 10]).
Proof.
  apply (X22_jump_at_the_first_element defaultConfig
           (map F32.of_Z [2000; 10; 10; 10])); try by_evaluation.
  intros i Hi.
  change (size (map F32.of_Z [2000; 10; 10; 10])) with 4 in Hi.
  assert (i = 2) by lia. subst i. by_evaluation.
Defined.

(** X23 at 10, 20, 30, 2000: the last element becomes 30 + (30 - 20). *)
Lemma X23_last_jump_witness :
  SmoothDedxVector defaultConfig (map F32.of_Z [10; 20; 30; 2000])
  = Ret (map F32.of_Z [10; 20; 30; 40]).
Proof.
  apply (X23_jump_at_the_last_element defaultConfig
           (map F32.of_Z [10; 20; 30; 2000])); try by_evaluation.
  intros i Hi.
  change (size (map F32.of_Z [10; 20; 30; 2000])) with 4 in Hi.
  assert (Hcases : i = 1 \/ i = 2) by lia.
  destruct Hcases as [-> | ->]; by_evaluation.
Defined.

(** X24 at a minimum of 3, a target length of 4 and the samples
    2000, 2000, 1900, -5, -5: none is clamped. *)
Lemma X24_raw_tail_witness :
  GetDeDxVector no_angle steady_draws
    (mkConfig 3 4 (F32.of_Z 1000) (F32.of_Z 500))
    (track_particle (map F32.of_Z [2000; 2000; 1900; -5; -5]) [])
  = Ret (map F32.of_Z [2000; 1900; -5; -5]).
Proof.
  apply (X24_sample_vector_is_the_raw_tail no_angle steady_draws
           (mkConfig 3 4 (F32.of_Z 1000) (F32.of_Z 500))
           (track_particle (map F32.of_Z [2000; 2000; 1900; -5; -5]) []));
    try by_evaluation.
  split; [by_evaluation |]. split; [by_evaluation |].
  intros q Hq.
  change (size (dEdx (track_particle (map F32.of_Z [2000; 2000; 1900; -5; -5]) [])))
    with 5 in Hq.
  assert (Hcases : q = 1 \/ q = 2 \/ q = 3) by lia.
  destruct Hcases as [-> | [-> | ->]]; by_evaluation.
Defined.

(** X5 at the trajectory with the directions 0, 1, 4, 9: the angles are 1,
    3 and 5. *)
Lemma X5_deflection_witness :
  length (directions bent_track) = 4%nat /\
  length (consecutive_angles distance_angle (directions bent_track)) = 3%nat /\
  GetDeflectionMeanAndSigma distance_angle bent_track
  = (StatSpec.mean (map F32.of_Z [1; 3; 5]), StatSpec.stddev (map F32.of_Z [1; 3; 5])).
Proof.
  apply (X5_deflection_statistics_are_those_of_the_angles distance_angle bent_track).
  by_evaluation.
Defined.
